(** * Insight-Engine: the SQL generation and validation core

    A shallow embedding of [logic.py] and [prompt_logic.py]: the Validator
    ([is_query_valid]), the Output Extractor ([clean_sql_output]), the
    Dialect Normalizer ([fix_postgres_sql]), the Prompt Builder
    ([build_prompt_from_files]) and the generation-validation loop
    ([generate_and_validate_sql]); then the analysis of a result
    ([get_llm_analysis]) and the query endpoint of [main.py]
    ([handle_query]).

    Conventions of the embedding.
    - A Python [str] is a Rocq [string].  The character functions
      ([isspace], [upper], the regular expression class [\w]) are given on
      the ASCII range, where the keywords of the program live; a character
      from 128 up is kept as it is and counts as neither a space, a letter
      nor a word character.  On a text of the ASCII range ([is_ascii])
      they are the functions of Python; a theorem that says what these
      functions do to a text is stated for such texts.  The Validator is
      also given over any [strip] and [upper] ([is_query_valid_with]), and
      the extractor over any tables of the characters beyond ASCII
      ([clean_sql_output_with]), a text being read as the bytes of its
      UTF-8 form.
    - The outside world (the example file, the random generator, the
      generation service and the database) is a state [W] with one oracle
      per call the program makes, gathered in [Env].  A computation returns
      its result or the exception it raises, the events it caused in the
      order they happened, and the new state of the world.
    - The normalizer and the loop are written over any SQL parser, the
      library [sqlparse] not being part of the program; a model of the part
      of that library which the rewrites of the normalizer go through is
      given in [Sqlparse], and the normalizer is run on it.
    - [print] and the Streamlit notices are not modelled: they do not
      influence what is computed. *)

From Stdlib Require Import String Ascii List Bool Arith ZArith Lia.
From Stdlib Require Import DecimalString.
Import ListNotations.

Local Open Scope string_scope.
Local Open Scope nat_scope.
Local Open Scope bool_scope.

(** ** Python strings *)

Module PyStr.

(** [str.isspace] on one ASCII character: tab, line feed, vertical tab,
    form feed, carriage return, the four separators 28..31 and space. *)
Definition isspace (c : ascii) : bool :=
  let n := nat_of_ascii c in
  ((9 <=? n) && (n <=? 13)) || ((28 <=? n) && (n <=? 32)).

Definition is_lower (c : ascii) : bool :=
  let n := nat_of_ascii c in (97 <=? n) && (n <=? 122).

Definition is_upper (c : ascii) : bool :=
  let n := nat_of_ascii c in (65 <=? n) && (n <=? 90).

Definition is_digit (c : ascii) : bool :=
  let n := nat_of_ascii c in (48 <=? n) && (n <=? 57).

(** The class [\w] of [re]: letters, digits and the underscore. *)
Definition is_word (c : ascii) : bool :=
  is_lower c || is_upper c || is_digit c || Ascii.eqb c "_".

Definition upper_char (c : ascii) : ascii :=
  if is_lower c then ascii_of_nat (nat_of_ascii c - 32) else c.

(** [s.upper()] *)
Fixpoint upper (s : string) : string :=
  match s with
  | EmptyString => EmptyString
  | String c s' => String (upper_char c) (upper s')
  end.

(** [s.lstrip()] *)
Fixpoint lstrip (s : string) : string :=
  match s with
  | EmptyString => EmptyString
  | String c s' => if isspace c then lstrip s' else s
  end.

(** [s.rstrip()] *)
Fixpoint rstrip (s : string) : string :=
  match s with
  | EmptyString => EmptyString
  | String c s' =>
      match rstrip s' with
      | EmptyString => if isspace c then EmptyString else String c EmptyString
      | r => String c r
      end
  end.

(** [s.strip()] *)
Definition strip (s : string) : string := rstrip (lstrip s).

(** [s.startswith(p)] *)
Definition startswith (s p : string) : bool := String.prefix p s.

(** [s[n:]] for [0 <= n] *)
Fixpoint drop (n : nat) (s : string) : string :=
  match n, s with
  | O, _ => s
  | S n', EmptyString => EmptyString
  | S n', String _ s' => drop n' s'
  end.

(** [s[:n]] for [0 <= n] *)
Fixpoint take (n : nat) (s : string) : string :=
  match n, s with
  | O, _ => EmptyString
  | S n', EmptyString => EmptyString
  | S n', String c s' => String c (take n' s')
  end.

(** [s.endswith(p)] *)
Definition endswith (s p : string) : bool :=
  (String.length p <=? String.length s)
  && String.eqb (drop (String.length s - String.length p) s) p.

(** [s.rfind(c)] for a one-character [c]: the highest index holding [c],
    [None] where Python answers [-1]. *)
Fixpoint rfind (c : ascii) (s : string) : option nat :=
  match s with
  | EmptyString => None
  | String d s' =>
      match rfind c s' with
      | Some i => Some (S i)
      | None => if Ascii.eqb d c then Some 0 else None
      end
  end.

(** [sep.join(parts)] with an empty separator *)
Fixpoint concat (parts : list string) : string :=
  match parts with
  | [] => EmptyString
  | [part] => part
  | part :: more => part ++ concat more
  end.

(** A text that [rstrip] leaves as it is, and that is not empty. *)
Definition solid (s : string) : Prop :=
  rstrip s = s /\ s <> EmptyString.

(** [str(n)] for an [int] *)
Definition str_of_int (n : Z) : string :=
  NilZero.string_of_int (Z.to_int n).

(** The texts of the ASCII range. *)
Fixpoint is_ascii (s : string) : bool :=
  match s with
  | EmptyString => true
  | String c s' => (nat_of_ascii c <? 128) && is_ascii s'
  end.

(** [bool(s)] for a value that is a string or [None] *)
Definition truthy (o : option string) : bool :=
  match o with
  | Some (String _ _) => true
  | _ => false
  end.

End PyStr.

Import PyStr.

(** ** The outside world *)

(** What the database answers to a dry run: the plan was produced, the
    planner rejected the statement ([ProgrammingError], with the native
    error text [e.orig]), or anything else went wrong (connection, time
    out), with the text of the exception. *)
Inductive db_result : Type :=
| DbOk
| DbProgrammingError (orig : string)
| DbOtherError (e : string).

(** The exceptions that leave the functions of the program:
    [ValueError] of the loop; [OSError] of [open], [UnicodeDecodeError] of
    [f.read()], with its text, and [IndexError] of [parts[1]] in the Prompt
    Builder; [SQLParseError] of the parser.  [UnicodeDecodeError] is a
    subclass of [ValueError]. *)
Inductive exn : Type :=
| ValueError (msg : string)
| OSError (path : string)
| UnicodeDecodeError (reason : string)
| IndexError
| SQLParseError.

(** What comes of [open(path)] and [f.read()]: the text of the file, or
    the file cannot be opened, or its bytes are not a text in the encoding
    asked for. *)
Inductive file_content : Type :=
| FileText (text : string)
| CannotOpen
| CannotDecode (reason : string).

(** The calls that cross the border of the program.  [EvValidate] records
    one call of [is_query_valid] by the loop together with what it
    returned. *)
Inductive event : Type :=
| EvGenerate (prompt : string) (response : option string)
| EvExplain (statement : string) (answer : db_result)
| EvValidate (sql : string) (is_valid : bool) (message : string).

(** The events of a run that are dry runs of the database. *)
Definition is_explain (e : event) : bool :=
  match e with EvExplain _ _ => true | _ => false end.

(** The events of a run that are calls of the generation service, and
    those that are calls of the Validator. *)
Definition is_generate (e : event) : bool :=
  match e with EvGenerate _ _ => true | _ => false end.

Definition is_validate (e : event) : bool :=
  match e with EvValidate _ _ _ => true | _ => false end.

Definition generation_calls (t : list event) : nat :=
  length (filter is_generate t).

Definition validation_calls (t : list event) : nat :=
  length (filter is_validate t).

(** No call of the Validator in [t] answered valid. *)
Definition all_failed (t : list event) : bool :=
  forallb
    (fun e => match e with EvValidate _ v _ => negb v | _ => true end) t.

(** The message of the last call of the Validator in [t], [start] when
    there is none. *)
Definition last_message (start : string) (t : list event) : string :=
  fold_left
    (fun m e => match e with EvValidate _ _ m' => m' | _ => m end) t start.

(** The oracles of a world [W]:
    - [read_text path] is [open(path).read()];
    - [random_sample population k] is [random.sample(population, k)] for
      [k < len(population)];
    - [ollama_generate prompt] is [ollama.generate(...)['response']], or
      [None] when the call raises;
    - [engine_execute statement] is [connection.execute(text(statement))]
      on a connection of its own. *)
Record Env (W : Type) : Type := {
  read_text : string -> W -> file_content * W;
  random_sample : list string -> nat -> W -> list string * W;
  ollama_generate : string -> W -> option string * W;
  engine_execute : string -> W -> db_result * W
}.

Arguments read_text {W} _ _ _.
Arguments random_sample {W} _ _ _ _.
Arguments ollama_generate {W} _ _ _.
Arguments engine_execute {W} _ _ _.

(** A computation in the world [W]: the exception raised or the value
    returned, the events caused, in the order they happened, and the world
    afterwards. *)
Definition M (W A : Type) : Type := W -> (exn + A) * list event * W.

Definition ret {W A} (a : A) : M W A := fun w => (inr a, [], w).

Definition raise {W A} (e : exn) : M W A := fun w => (inl e, [], w).

Definition bind {W A B} (m : M W A) (k : A -> M W B) : M W B :=
  fun w =>
    match m w with
    | (inl e, t, w') => (inl e, t, w')
    | (inr a, t, w') =>
        match k a w' with
        | (r, t', w'') => (r, (t ++ t')%list, w'')
        end
    end.

Definition emit {W} (e : event) : M W unit := fun w => (inr tt, [e], w).

Declare Scope py_scope.
Delimit Scope py_scope with py.
Notation "x <- m ;; k" := (bind m (fun x => k))
  (at level 61, m at next level, right associativity) : py_scope.
Notation "m ;;; k" := (bind m (fun _ => k))
  (at level 61, right associativity) : py_scope.

Definition outcome {W A} (r : (exn + A) * list event * W) : exn + A :=
  fst (fst r).
Definition trace {W A} (r : (exn + A) * list event * W) : list event :=
  snd (fst r).

(** ** The Validator *)

Section Validator.
Context {W : Type} (env : Env W).
Local Open Scope py_scope.

Definition rejection_message : string :=
  "Validation failed: Only SELECT or CTE statements can be checked.".

(** The read-only gate of [is_query_valid]: the test on [clean_query],
    over the functions [py_strip] and [py_upper] that stand for
    [str.strip] and [str.upper]. *)
Definition gate (py_strip py_upper : string -> string) (sql_query : string)
  : bool :=
  let clean_query := py_upper (py_strip sql_query) in
  startswith clean_query "SELECT" || startswith clean_query "WITH".

Definition passes_gate (sql_query : string) : bool :=
  gate strip upper sql_query.

(** The dry run: [connection.execute(text(f"EXPLAIN {sql_query}"))]. *)
Definition explain (sql_query : string) : M W db_result :=
  fun w =>
    let statement := "EXPLAIN " ++ sql_query in
    let '(r, w') := engine_execute env statement w in
    (inr r, [EvExplain statement r], w').

Definition is_query_valid_with (py_strip py_upper : string -> string)
  (sql_query : string) : M W (bool * string) :=
  if negb (gate py_strip py_upper sql_query) then
    ret (false, rejection_message)
  else
    r <- explain sql_query ;;
    match r with
    | DbOk => ret (true, "OK")
    | DbProgrammingError orig => ret (false, orig)
    | DbOtherError e => ret (false, "An unexpected error occurred: " ++ e)
    end.

(** [is_query_valid] with the functions of [PyStr]. *)
Definition is_query_valid (sql_query : string) : M W (bool * string) :=
  is_query_valid_with strip upper sql_query.

End Validator.

(** ** The Output Extractor *)

Module Extractor.

(** The pattern [\b(SELECT|WITH)\b] under [re.IGNORECASE].  [\b] holds
    between two positions when exactly one of the characters on its sides
    is a word character, the ends of the text counting as non-word. *)

Definition head_is_word (s : string) : bool :=
  match s with
  | EmptyString => false
  | String c _ => is_word c
  end.

Definition word_boundary (prev_is_word : bool) (s : string) : bool :=
  xorb prev_is_word (head_is_word s).

(** The letters of [kw] in order, each in either case; the answer is the
    text that follows them. *)
Fixpoint match_literal (kw s : string) : option string :=
  match kw with
  | EmptyString => Some s
  | String k kw' =>
      match s with
      | EmptyString => None
      | String c s' =>
          if Ascii.eqb (upper_char c) (upper_char k)
          then match_literal kw' s'
          else None
      end
  end.

(** One branch of the alternation and the closing [\b]; the character
    before that [\b] is the last letter of the keyword. *)
Definition match_keyword (kw s : string) : bool :=
  match match_literal kw s with
  | Some rest => word_boundary true rest
  | None => false
  end.

(** The whole pattern at one position; the regular expression engine tries
    [SELECT] first and [WITH] when that branch fails. *)
Definition match_here (prev_is_word : bool) (s : string) : bool :=
  word_boundary prev_is_word s
  && (match_keyword "SELECT" s || match_keyword "WITH" s).

(** [re.search]: the leftmost position where the pattern matches. *)
Fixpoint search_from (prev_is_word : bool) (s : string) (pos : nat)
  : option nat :=
  if match_here prev_is_word s then Some pos
  else
    match s with
    | EmptyString => None
    | String c s' => search_from (is_word c) s' (S pos)
    end.

Definition re_search (s : string) : option nat := search_from false s 0.

(** [raw_output] is what [query_olama] returned: a string, or [None]. *)
Definition clean_sql_output (raw_output : option string) : string :=
  match raw_output with
  | None => EmptyString
  | Some EmptyString => EmptyString
  | Some raw =>
      match re_search raw with
      | None => EmptyString
      | Some start =>
          let query_candidate := drop start raw in
          let final_query :=
            match rfind ";" query_candidate with
            | Some last_semicolon_pos =>
                take (last_semicolon_pos + 1) query_candidate
            | None => query_candidate
            end in
          strip final_query
      end
  end.

(** *** The extractor over the characters of Unicode

    A text of Python is read as the bytes of its UTF-8 form: a character of
    the ASCII range is one byte below 128, a character beyond it is a byte
    from 192 up followed by bytes from 128 to 191.  What [re] knows of the
    characters beyond ASCII is a parameter, and so is [str.strip]. *)

Record Unicode : Type := {
  (** [\w] on the character that the first byte of the text belongs to,
      for a first byte from 128 up; the argument is the answer for the
      character before the text, which is the same character when that
      byte is not the first byte of a character *)
  word_beyond : bool -> string -> bool;
  (** the text starts with a character beyond ASCII that the letter of the
      pattern matches under [re.IGNORECASE]: the number of bytes of that
      character, and 0 when it does not match *)
  fold_beyond : ascii -> string -> nat
}.

(** The tables that know no character beyond ASCII. *)
Definition ascii_only : Unicode :=
  {| word_beyond := fun _ _ => false; fold_beyond := fun _ _ => 0 |}.

Definition beyond_ascii (c : ascii) : bool := 128 <=? nat_of_ascii c.

Definition head_is_word_with (U : Unicode) (prev_is_word : bool) (s : string)
  : bool :=
  match s with
  | EmptyString => false
  | String c _ =>
      if beyond_ascii c then word_beyond U prev_is_word s else is_word c
  end.

Definition word_boundary_with (U : Unicode) (prev_is_word : bool) (s : string)
  : bool :=
  xorb prev_is_word (head_is_word_with U prev_is_word s).

Fixpoint match_literal_with (U : Unicode) (kw s : string) : option string :=
  match kw with
  | EmptyString => Some s
  | String k kw' =>
      match s with
      | EmptyString => None
      | String c s' =>
          if Ascii.eqb (upper_char c) (upper_char k)
          then match_literal_with U kw' s'
          else if beyond_ascii c then
            match fold_beyond U k s with
            | O => None
            | S more => match_literal_with U kw' (drop more s')
            end
          else None
      end
  end.

Definition match_keyword_with (U : Unicode) (kw s : string) : bool :=
  match match_literal_with U kw s with
  | Some rest => word_boundary_with U true rest
  | None => false
  end.

Definition match_here_with (U : Unicode) (prev_is_word : bool) (s : string)
  : bool :=
  word_boundary_with U prev_is_word s
  && (match_keyword_with U "SELECT" s || match_keyword_with U "WITH" s).

Fixpoint search_from_with (U : Unicode) (prev_is_word : bool) (s : string)
  (pos : nat) : option nat :=
  if match_here_with U prev_is_word s then Some pos
  else
    match s with
    | EmptyString => None
    | String c s' =>
        search_from_with U (head_is_word_with U prev_is_word s) s' (S pos)
    end.

Definition re_search_with (U : Unicode) (s : string) : option nat :=
  search_from_with U false s 0.

Definition clean_sql_output_with (U : Unicode) (py_strip : string -> string)
  (raw_output : option string) : string :=
  match raw_output with
  | None => EmptyString
  | Some EmptyString => EmptyString
  | Some raw =>
      match re_search_with U raw with
      | None => EmptyString
      | Some start =>
          let query_candidate := drop start raw in
          let final_query :=
            match rfind ";" query_candidate with
            | Some last_semicolon_pos =>
                take (last_semicolon_pos + 1) query_candidate
            | None => query_candidate
            end in
          py_strip final_query
      end
  end.

(** *** The extractor as the specification words it *)

(** The character of [s] at index [i] is not a word character, or there is
    no such character. *)
Definition no_word_at (s : string) (i : nat) : bool :=
  match String.get i s with
  | Some c => negb (is_word c)
  | None => true
  end.

(** The keyword [kw] stands at index [i] of [s], in any mix of cases, as a
    word of its own. *)
Definition keyword_at (kw s : string) (i : nat) : bool :=
  String.eqb (upper (substring i (String.length kw) s)) kw
  && match i with O => true | S j => no_word_at s j end
  && no_word_at s (i + String.length kw).

Definition token_at (s : string) (i : nat) : bool :=
  keyword_at "SELECT" s i || keyword_at "WITH" s i.

(** The first index of [s] where a SELECT or WITH token stands. *)
Definition first_token (s : string) : option nat :=
  find (token_at s) (seq 0 (S (String.length s))).

(** Whether the character before index [i] is a word character. *)
Definition word_before (s : string) (i : nat) : bool :=
  match i with
  | O => false
  | S j => negb (no_word_at s j)
  end.

(** [kept] is [rem] cut after its last character [c], or [rem] itself when
    [c] does not occur in it. *)
Definition truncated_at_last (c : ascii) (rem kept : string) : Prop :=
  (exists p,
      String.get p rem = Some c
      /\ (forall q, p < q -> String.get q rem <> Some c)
      /\ kept = take (S p) rem)
  \/ ((forall q, String.get q rem <> Some c) /\ kept = rem).

(** The same over the characters of Unicode: whether the character before
    index [i] of [s] is a word character, [prev_is_word] telling it for
    the character before [s]; and whether the pattern matches at index
    [i]. *)
Fixpoint word_before_with (U : Unicode) (prev_is_word : bool) (s : string)
  (i : nat) {struct i} : bool :=
  match i with
  | O => prev_is_word
  | S j =>
      match s with
      | EmptyString => false
      | String c s' =>
          word_before_with U (head_is_word_with U prev_is_word s) s' j
      end
  end.

Definition token_at_with (U : Unicode) (s : string) (i : nat) : bool :=
  match_here_with U (word_before_with U false s i) (drop i s).

(** Tables that know three characters beyond ASCII: the letter e with an
    acute accent (bytes 195 169), the capital I with a dot above (196 176),
    which the letter I of a pattern matches under [re.IGNORECASE], and the
    long s (197 191), which the letter S matches.  All three are word
    characters; a byte from 128 to 191 belongs to the character before. *)
Definition two_bytes (a b : nat) : string :=
  String (ascii_of_nat a) (String (ascii_of_nat b) EmptyString).

Definition e_acute : string := two_bytes 195 169.
Definition dotted_I : string := two_bytes 196 176.
Definition long_s : string := two_bytes 197 191.

Definition sample_tables : Unicode :=
  {| word_beyond := fun prev_is_word s =>
       match s with
       | EmptyString => false
       | String c _ =>
           if nat_of_ascii c <? 192 then prev_is_word
           else String.prefix e_acute s || String.prefix dotted_I s
                || String.prefix long_s s
       end;
     fold_beyond := fun k s =>
       if Ascii.eqb (upper_char k) "I" && String.prefix dotted_I s then 2
       else if Ascii.eqb (upper_char k) "S" && String.prefix long_s s then 2
       else 0 |}.

Definition sample_output : string :=
  "Sure! ```sql" ++ String "010" ("SELECT 1;" ++ String "010" "``` done").

End Extractor.

Import Extractor.

(** ** The SQL parser the normalizer works on

    [fix_postgres_sql] parses with the library [sqlparse], which is not part
    of the repository.  The normalizer itself is written below over any
    parser ([Section Normalizer]); this module is a model of the part of the
    library that the normalizer's own texts go through, so that the
    normalizer can be run on them: the token types, the token tree, the
    lexer rules for white space, words, integers, quoted names and strings,
    parentheses and commas, taken in the order of the library's rule list,
    and the grouping passes that act on such tokens ([group_parenthesis],
    [group_functions], [group_identifier], [group_as], [group_aliased],
    [group_identifier_list]), in the order of [grouping.group].

    The model answers [None] on a text it does not cover: a character
    without a modelled rule, a word the library treats by a rule that is not
    modelled, a number that is not a plain integer, an escape inside quotes,
    a typed literal.  The keyword table of the library is a parameter of the
    lexer. *)

Module Sqlparse.

(** The token types of [sqlparse.tokens] that occur.  [Name_Quoted] is the
    type [Name.Quoted] that the normalizer asks for: the library makes a
    token type on the fly for any attribute name, and none of its lexer
    rules gives this one to a token. *)
Inductive ttype : Type :=
| Whitespace | Newline
| Keyword | Keyword_DML | Keyword_DDL | Keyword_CTE
| Name | Name_Builtin | Name_Quoted
| String_Single
| Number_Integer
| Punctuation.

(** The classes of [sqlparse.sql] that occur. *)
Inductive group_class : Type :=
| Statement | Parenthesis | Function | Identifier | IdentifierList.

(** A token: a leaf with its type and text, or a group with its class, the
    fields [value] and [normalized] and its children [tokens].  The two
    text fields of a group are set when the group is made and are not kept
    up to date when its children change later. *)
#[local] Unset Elimination Schemes.
Inductive token : Type :=
| Tok (ty : ttype) (value : string)
| Grp (c : group_class) (value normalized : string) (tokens : list token).
#[local] Set Elimination Schemes.

Definition ttype_eqb (a b : ttype) : bool :=
  match a, b with
  | Whitespace, Whitespace | Newline, Newline | Keyword, Keyword
  | Keyword_DML, Keyword_DML | Keyword_DDL, Keyword_DDL
  | Keyword_CTE, Keyword_CTE | Name, Name | Name_Builtin, Name_Builtin
  | Name_Quoted, Name_Quoted | String_Single, String_Single
  | Number_Integer, Number_Integer | Punctuation, Punctuation => true
  | _, _ => false
  end.

Definition class_eqb (a b : group_class) : bool :=
  match a, b with
  | Statement, Statement | Parenthesis, Parenthesis | Function, Function
  | Identifier, Identifier | IdentifierList, IdentifierList => true
  | _, _ => false
  end.

(** [ttype in T.Keyword], [ttype in T.Whitespace], [ttype in T.Name],
    [ttype in T.Literal], [ttype in T.Number]: a type or one below it. *)
Definition in_Keyword (ty : ttype) : bool :=
  match ty with
  | Keyword | Keyword_DML | Keyword_DDL | Keyword_CTE => true
  | _ => false
  end.
Definition in_Whitespace (ty : ttype) : bool :=
  match ty with Whitespace | Newline => true | _ => false end.
Definition in_Name (ty : ttype) : bool :=
  match ty with Name | Name_Builtin | Name_Quoted => true | _ => false end.
Definition in_Literal (ty : ttype) : bool :=
  match ty with String_Single | Number_Integer => true | _ => false end.
Definition in_Number (ty : ttype) : bool :=
  match ty with Number_Integer => true | _ => false end.

(** The attributes of a token. *)
Definition value (t : token) : string :=
  match t with Tok _ v => v | Grp _ v _ _ => v end.
Definition is_group (t : token) : bool :=
  match t with Tok _ _ => false | Grp _ _ _ _ => true end.
Definition is_keyword (t : token) : bool :=
  match t with Tok ty _ => in_Keyword ty | Grp _ _ _ _ => false end.
Definition is_whitespace (t : token) : bool :=
  match t with Tok ty _ => in_Whitespace ty | Grp _ _ _ _ => false end.
Definition normalized (t : token) : string :=
  match t with
  | Tok ty v => if in_Keyword ty then upper v else v
  | Grp _ _ n _ => n
  end.
Definition tokens (t : token) : list token :=
  match t with Tok _ _ => [] | Grp _ _ _ ts => ts end.
Definition is_instance (c : group_class) (t : token) : bool :=
  match t with Tok _ _ => false | Grp c' _ _ _ => class_eqb c c' end.
Definition has_ttype (ty : ttype) (t : token) : bool :=
  match t with Tok ty' _ => ttype_eqb ty ty' | Grp _ _ _ _ => false end.

(** [str(token)]: the texts of the leaves, left to right. *)
Fixpoint str (t : token) : string :=
  match t with
  | Tok _ v => v
  | Grp _ _ _ ts => concat (map str ts)
  end.
Definition str_list (ts : list token) : string := concat (map str ts).

(** A fresh group: [value] and [normalized] are its text. *)
Definition new_group (c : group_class) (ts : list token) : token :=
  Grp c (str_list ts) (str_list ts) ts.

(** [group_tokens(cls, start, end, extend=extend)] on the tokens
    [start :: more]: [start] takes [more] in when it is of the class
    already and [extend] is set, with [value] brought up to date and
    [normalized] left as it was; otherwise a new group is made. *)
Definition group_tokens (c : group_class) (extend : bool)
  (start : token) (more : list token) : token :=
  match start with
  | Grp c' _ n ts =>
      if extend && class_eqb c c'
      then Grp c' (str_list (ts ++ more)%list) n (ts ++ more)%list
      else new_group c (start :: more)
  | Tok _ _ => new_group c (start :: more)
  end.

(** *** The lexer *)

Fixpoint span_str (p : ascii -> bool) (s : string) : string * string :=
  match s with
  | EmptyString => (EmptyString, EmptyString)
  | String c s' =>
      if p c then let '(a, b) := span_str p s' in (String c a, b)
      else (EmptyString, s)
  end.

Fixpoint all_chars (p : ascii -> bool) (s : string) : bool :=
  match s with
  | EmptyString => true
  | String c s' => p c && all_chars p s'
  end.

Definition is_letter (c : ascii) : bool := is_lower c || is_upper c.

Definition mem_str (w : string) (l : list string) : bool :=
  existsb (String.eqb w) l.

(** Words that the library lexes or groups by rules outside the model:
    the first words of its rules for keywords of several words, and the
    keywords that open or close a group of their own. *)
Definition unmodelled_words : list string :=
  [ "CASE"; "IN"; "VALUES"; "USING"; "FROM"; "WHERE"; "JOIN"; "INNER";
    "LEFT"; "RIGHT"; "FULL"; "OUTER"; "CROSS"; "NATURAL"; "STRAIGHT"; "ON";
    "GROUP"; "ORDER"; "BY"; "HAVING"; "LIMIT"; "OFFSET"; "UNION"; "ALL";
    "DISTINCT"; "AND"; "OR"; "NOT"; "NULL"; "NULLS"; "IS"; "LIKE"; "ILIKE";
    "RLIKE"; "REGEXP"; "BETWEEN"; "WHEN"; "THEN"; "ELSE"; "END"; "IF";
    "FOR"; "BEGIN"; "DECLARE"; "OVER"; "INSERT"; "UPDATE"; "DELETE";
    "CREATE"; "TABLE"; "DROP"; "ALTER"; "WITH"; "ASC"; "DESC"; "TIMESTAMP";
    "INTERVAL"; "DOUBLE"; "PRIMARY"; "HANDLER"; "GO"; "LATERAL"; "AT";
    "LOOP"; "WHILE"; "ROLE"; "ZORDER" ].

Definition head_is_digit (w : string) : bool :=
  match w with String c _ => is_digit c | EmptyString => false end.

Definition starts_with_char (c : ascii) (s : string) : bool :=
  match s with String d _ => Ascii.eqb c d | EmptyString => false end.

Definition name_before_parenthesis (w rest : string) : bool :=
  match w with
  | String c _ => is_letter c && starts_with_char "(" rest
  | EmptyString => false
  end.

(** The types that the keyword table may give to a word in the model. *)
Definition table_type (ty : ttype) : bool :=
  match ty with
  | Keyword | Keyword_DML | Keyword_DDL | Keyword_CTE | Name_Builtin => true
  | _ => false
  end.

Section Lexer.

(** The keyword table of the library, which is not part of the program:
    the type that [KEYWORDS] and the tables beside it give to a word
    written in upper case, [None] for a word they do not list. *)
Variable keywords : string -> option ttype.

(** The type of the word [w], a longest run of word characters, followed by
    [rest].  In the order of the library's rules: the rule
    [(CASE|IN|VALUES|USING|FROM|AS)\b], of which [AS] is modelled; the rule
    [[A-Z]\w*(?=\()], which makes a name of a word written right before an
    opening parenthesis; the rule for integers; the look-up of [is_keyword]
    in the keyword table, a word that is not listed being a name. *)
Definition lex_word (w rest : string) : option ttype :=
  let u := upper w in
  if String.eqb u "AS" then Some Keyword
  else if mem_str u unmodelled_words then None
  else if name_before_parenthesis w rest then Some Name
  else if head_is_digit w then
    if all_chars is_digit w then Some Number_Integer else None
  else
    match keywords u with
    | None => Some Name
    | Some ty => if table_type ty then Some ty else None
    end.

(** The text between a quote [q] and the next one, and what follows that
    one.  A backslash inside, or a further quote right after the closing
    one, is outside the model. *)
Fixpoint scan_quoted (q : ascii) (s : string) : option (string * string) :=
  match s with
  | EmptyString => None
  | String c s' =>
      if Ascii.eqb c q then
        if starts_with_char q s' then None else Some (EmptyString, s')
      else if Ascii.eqb c "\" then None
      else
        match scan_quoted q s' with
        | Some (body, rest) => Some (String c body, rest)
        | None => None
        end
  end.

Definition char_str (c : ascii) : string := String c EmptyString.

Definition CR : ascii := "013".
Definition LF : ascii := "010".

Fixpoint lex_fuel (fuel : nat) (s : string) : option (list token) :=
  match s with
  | EmptyString => Some []
  | String c s' =>
      match fuel with
      | O => None
      | S fuel' =>
          let continue ty text rest :=
            option_map (cons (Tok ty text)) (lex_fuel fuel' rest) in
          if Ascii.eqb c CR then
            match s' with
            | String d s'' =>
                if Ascii.eqb d LF
                then continue Newline (String CR (char_str LF)) s''
                else continue Newline (char_str CR) s'
            | EmptyString => continue Newline (char_str CR) s'
            end
          else if Ascii.eqb c LF then continue Newline (char_str LF) s'
          else if isspace c then continue Whitespace (char_str c) s'
          else if Ascii.eqb c "`" then
            match scan_quoted "`" s' with
            | Some (body, rest) =>
                continue Name (String "`" (body ++ "`")) rest
            | None => None
            end
          else if is_word c then
            let '(w, rest) := span_str is_word s in
            match lex_word w rest with
            | Some ty => continue ty w rest
            | None => None
            end
          else if Ascii.eqb c "'" then
            match scan_quoted "'" s' with
            | Some (body, rest) =>
                continue String_Single (String "'" (body ++ "'")) rest
            | None => None
            end
          else if Ascii.eqb c "(" || Ascii.eqb c ")" || Ascii.eqb c "," then
            continue Punctuation (char_str c) s'
          else None
      end
  end.

(** [Lexer.get_tokens]: the leaves of a text. *)
Definition lex (s : string) : option (list token) :=
  lex_fuel (String.length s) s.



End Lexer.

(** A keyword table with the entries that the texts of the normalizer
    meet. *)
Definition sample_keywords (u : string) : option ttype :=
  if String.eqb u "SELECT" then Some Keyword_DML
  else if String.eqb u "CURRENT_TIMESTAMP" then Some Keyword
  else if String.eqb u "DATE" || String.eqb u "NUMERIC" then Some Name_Builtin
  else None.

(** *** The grouping passes *)

Local Open Scope list_scope.

Fixpoint span_ws (ts : list token) : list token * list token :=
  match ts with
  | t :: r =>
      if is_whitespace t then let '(a, b) := span_ws r in (t :: a, b)
      else ([], ts)
  | [] => ([], [])
  end.

(** [token.match(T.Punctuation, text)] *)
Definition is_punctuation (text : string) (t : token) : bool :=
  match t with
  | Tok Punctuation v => String.eqb v text
  | _ => false
  end.

(** [group_parenthesis]: every closing parenthesis makes a group with the
    nearest opening one that is still free and all that stands between
    them; a parenthesis without a partner stays a leaf.  [cur] holds, last
    first, the tokens gathered since the innermost free opening
    parenthesis, [opens] the same for the ones around it. *)
Fixpoint group_parenthesis (ts cur : list token) (opens : list (list token))
  : list token :=
  match ts with
  | [] => rev (fold_left (fun acc frame => acc ++ frame) opens cur)
  | t :: r =>
      if is_punctuation "(" t then group_parenthesis r [t] (cur :: opens)
      else if is_punctuation ")" t then
        match opens with
        | outer :: opens' =>
            group_parenthesis r
              (new_group Parenthesis (rev (t :: cur)) :: outer) opens'
        | [] => group_parenthesis r (t :: cur) []
        end
      else group_parenthesis r (t :: cur) opens
  end.

(** A pass written with [@recurse(cls)]: the groups below are gone through
    first, those of a class in [skip] left out, then the list itself. *)
Section Recurse.
Variable skip : group_class -> bool.
Variable level : list token -> option (list token).

Fixpoint recurse (t : token) : option token :=
  match t with
  | Tok _ _ => Some t
  | Grp c v n ts =>
      if skip c then Some t
      else
        match
          (fix children (l : list token) : option (list token) :=
             match l with
             | [] => Some []
             | x :: r =>
                 match recurse x, children r with
                 | Some x', Some r' => Some (x' :: r')
                 | _, _ => None
                 end
             end) ts
        with
        | Some ts' => option_map (Grp c v n) (level ts')
        | None => None
        end
  end.
End Recurse.

(** [group_functions]: a leaf of a type in [T.Name] and the parenthesis
    that follows it, white space between them included, make a
    [Function]. *)
Definition is_name_leaf (t : token) : bool :=
  match t with Tok ty _ => in_Name ty | Grp _ _ _ _ => false end.

Definition functions_level (ts : list token) : list token :=
  fold_right
    (fun t done =>
       if is_name_leaf t then
         let '(ws, after) := span_ws done in
         match after with
         | p :: after' =>
             if is_instance Parenthesis p
             then new_group Function (t :: ws ++ [p]) :: after'
             else t :: done
         | [] => t :: done
         end
       else t :: done)
    [] ts.

Definition group_functions : token -> option token :=
  recurse (class_eqb Function) (fun ts => Some (functions_level ts)).

(** [group_identifier]: a leaf whose type is [T.Name] itself becomes an
    [Identifier] of its own. *)
Definition identifier_level (ts : list token) : list token :=
  map (fun t => if has_ttype Name t then new_group Identifier [t] else t) ts.

Definition group_identifier : token -> option token :=
  recurse (class_eqb Identifier) (fun ts => Some (identifier_level ts)).

(** [group_typed_literal] makes a group of a built-in type name and the
    string after it; a list where this could happen is outside the
    model. *)
Fixpoint typed_literal_free (ts : list token) : bool :=
  match ts with
  | [] => true
  | t :: r =>
      negb (has_ttype Name_Builtin t
            && match snd (span_ws r) with
               | n :: _ => has_ttype String_Single n
               | [] => false
               end)
      && typed_literal_free r
  end.

Definition group_typed_literal : token -> option token :=
  recurse (fun _ => false)
    (fun ts => if typed_literal_free ts then Some ts else None).

(** The helper [_group] of the library, which joins a token that [matches]
    with its neighbours: [prev] is the last token that was looked at and is
    not white space, the token before the match or the last one taken into
    the group made before; [done] holds the list so far, last first, so
    that its first token that is not white space is the one the new group
    starts from.  A neighbour on the right that matches as well is outside
    the model. *)
Section Group.
Variable cls : group_class.
Variable matches valid_prev valid_next : token -> bool.

Fixpoint group_level (fuel : nat) (done : list token) (prev : option token)
  (rest : list token) : option (list token) :=
  match fuel with
  | O => match rest with [] => Some (rev done) | _ => None end
  | S fuel' =>
      match rest with
      | [] => Some (rev done)
      | t :: r =>
          if is_whitespace t then group_level fuel' (t :: done) prev r
          else
            let keep := group_level fuel' (t :: done) (Some t) r in
            if matches t then
              match prev, span_ws r, span_ws done with
              | Some p, (ws, next_ :: r'), (ws_before, start :: older) =>
                  if valid_prev p && valid_next next_ then
                    if matches next_ then None
                    else
                      group_level fuel'
                        (group_tokens cls true start
                           (rev ws_before ++ t :: ws ++ [next_]) :: older)
                        (Some next_) r'
                  else keep
              | _, _, _ => keep
              end
            else keep
      end
  end.

Definition group_with (ts : list token) : option (list token) :=
  group_level (length ts) [] None ts.
End Group.

(** [group_as]: [x AS y] becomes one [Identifier]. *)
Definition is_as (t : token) : bool :=
  is_keyword t && String.eqb (normalized t) "AS".

Definition group_as : token -> option token :=
  recurse (class_eqb Identifier)
    (group_with Identifier is_as
       (fun p => String.eqb (normalized p) "NULL" || negb (is_keyword p))
       (fun n => negb (has_ttype Keyword_DML n || has_ttype Keyword_DDL n
                       || has_ttype Keyword_CTE n))).

(** [group_aliased]: a parenthesis, function, identifier or number with an
    identifier right after it becomes one [Identifier]. *)
Definition alias_head (t : token) : bool :=
  match t with
  | Tok ty _ => in_Number ty
  | Grp c _ _ _ =>
      class_eqb c Parenthesis || class_eqb c Function || class_eqb c Identifier
  end.

Fixpoint aliased_level (fuel : nat) (ts : list token) : list token :=
  match fuel with
  | O => ts
  | S fuel' =>
      match ts with
      | [] => []
      | t :: r =>
          if alias_head t then
            match span_ws r with
            | (ws, next_ :: r') =>
                if is_instance Identifier next_
                then group_tokens Identifier true t (ws ++ [next_])
                       :: aliased_level fuel' r'
                else t :: aliased_level fuel' r
            | (_, []) => t :: aliased_level fuel' r
            end
          else t :: aliased_level fuel' r
      end
  end.

Definition group_aliased : token -> option token :=
  recurse (class_eqb Identifier)
    (fun ts => Some (aliased_level (length ts) ts)).

(** [group_identifier_list]: tokens that may stand in a list and are joined
    by commas become one [IdentifierList]. *)
Definition list_member (t : token) : bool :=
  match t with
  | Tok ty _ =>
      match ty with
      | Number_Integer | String_Single | Name | Keyword => true
      | _ => false
      end
  | Grp c _ _ _ =>
      class_eqb c Function || class_eqb c Identifier
      || class_eqb c IdentifierList
  end.

Definition group_identifier_list : token -> option token :=
  recurse (class_eqb IdentifierList)
    (group_with IdentifierList (is_punctuation ",") list_member list_member).

(** [grouping.group]: the passes in the order of the library. *)
Definition group (statement : token) : option token :=
  match statement with
  | Grp c v n ts =>
      let s1 := Grp c v n (group_parenthesis ts [] []) in
      match group_functions s1 with
      | None => None
      | Some s2 =>
      match group_identifier s2 with
      | None => None
      | Some s3 =>
      match group_typed_literal s3 with
      | None => None
      | Some s4 =>
      match group_as s4 with
      | None => None
      | Some s5 =>
      match group_aliased s5 with
      | None => None
      | Some s6 => group_identifier_list s6
      end end end end end
  | Tok _ _ => None
  end.

(** [sqlparse.parse] on a text without a semicolon: no statement when
    there is nothing but white space, one statement otherwise. *)
Definition parse (keywords : string -> option ttype) (sql : string)
  : option (list token) :=
  match lex keywords sql with
  | None => None
  | Some leaves =>
      if forallb is_whitespace leaves then Some []
      else
        match group (new_group Statement leaves) with
        | Some statement => Some [statement]
        | None => None
        end
  end.

(** [Function.get_parameters] on the children [ts] of a function. *)
Definition get_identifiers (ts : list token) : list token :=
  filter (fun t => negb (is_whitespace t || is_punctuation "," t)) ts.

Definition is_parameter (t : token) : bool :=
  match t with
  | Tok ty _ => in_Literal ty
  | Grp c _ _ _ => class_eqb c Function || class_eqb c Identifier
  end.

Fixpoint parameters_of (inside result : list token) : list token :=
  match inside with
  | [] => result
  | t :: r =>
      if is_instance IdentifierList t then get_identifiers (tokens t)
      else if is_parameter t then parameters_of r (result ++ [t])
      else parameters_of r result
  end.

Definition get_parameters (ts : list token) : option (list token) :=
  match find (is_instance Parenthesis) ts with
  | Some parenthesis => Some (parameters_of (tokens parenthesis) [])
  | None => None
  end.

End Sqlparse.

Import Sqlparse.

(** ** The Dialect Normalizer *)

Section Normalizer.

(** [sqlparse.parse]: the statements of a text, or [None] when the call
    raises [SQLParseError]. *)
Variable parse : string -> option (list token).

(** [sqlparse.parse(snippet)[0].tokens] *)
Definition reparse_snippet (snippet : string) : option (list token) :=
  match parse snippet with
  | Some (statement :: _) => Some (tokens statement)
  | _ => None
  end.

Definition double_quote : string := String (ascii_of_nat 34) EmptyString.

(** Fix 1: a leaf of type [Name.Quoted] written between backticks gets its
    text between double quotes; a group has no type. *)
Definition fix_quoted_name (t : token) : token :=
  match t with
  | Tok ty v =>
      if ttype_eqb ty Name_Quoted && startswith v "`" && endswith v "`"
      then Tok ty (double_quote
                   ++ take (String.length v - 2) (drop 1 v)
                   ++ double_quote)
      else t
  | Grp _ _ _ _ => t
  end.

(** The name of a function: [normalized] of its first child that is a
    keyword or an [Identifier]. *)
Definition func_name (ts : list token) : option string :=
  option_map normalized
    (find (fun sub_token =>
             is_keyword sub_token || is_instance Identifier sub_token) ts).

(** One of the fixes 3 to 6: when [applies], the children of the function
    are replaced by the tokens of [snippet]. *)
Definition fix_when (applies : bool) (snippet : string) (ts : list token)
  : option (list token) :=
  if applies then reparse_snippet snippet else Some ts.

(** The body of [if isinstance(token, Function)] on the children [ts] of
    the function, after the call of [process_tokens] on them.  [params]
    hold the parameters as the parser left them: the text of a parameter
    that is a group is its field [value]. *)
Definition rewrite_function (ts : list token) : option (list token) :=
  match func_name ts with
  | None => Some ts
  | Some EmptyString => Some ts
  | Some name =>
      match get_parameters ts with
      | None => None
      | Some params =>
          let arg i := value (nth i params (Tok Name EmptyString)) in
          let n := length params in
          if String.eqb name "NOW" && (n =? 0) then
            reparse_snippet "CURRENT_TIMESTAMP"
          else
            match
              fix_when (String.eqb name "IFNULL" && (n =? 2))
                ("COALESCE(" ++ arg 0 ++ ", " ++ arg 1 ++ ")") ts
            with
            | None => None
            | Some ts3 =>
            match
              fix_when (String.eqb name "DATE" && (n =? 1))
                ("CAST(" ++ arg 0 ++ " AS DATE)") ts3
            with
            | None => None
            | Some ts4 =>
            match
              fix_when (String.eqb name "ROUND" && (n =? 2))
                ("ROUND(CAST(" ++ arg 0 ++ " AS NUMERIC), " ++ arg 1 ++ ")")
                ts4
            with
            | None => None
            | Some ts5 =>
                fix_when (String.eqb name "FORMAT_DATE" && (n =? 2))
                  ("TO_CHAR(" ++ arg 1 ++ ", 'Month')") ts5
            end end end
      end
  end.

(** One turn of the loop of [process_tokens] on the token [t]. *)
Fixpoint process_token (t : token) : option token :=
  match t with
  | Tok _ _ => Some (fix_quoted_name t)
  | Grp c v n ts =>
      match
        (fix process_tokens (l : list token) : option (list token) :=
           match l with
           | [] => Some []
           | x :: r =>
               match process_token x, process_tokens r with
               | Some x', Some r' => Some (x' :: r')
               | _, _ => None
               end
           end) ts
      with
      | None => None
      | Some ts' =>
          if class_eqb c Function
          then option_map (Grp c v n) (rewrite_function ts')
          else Some (Grp c v n ts')
      end
  end.

Fixpoint process_tokens (l : list token) : option (list token) :=
  match l with
  | [] => Some []
  | x :: r =>
      match process_token x, process_tokens r with
      | Some x', Some r' => Some (x' :: r')
      | _, _ => None
      end
  end.

Definition fix_postgres_sql (sql : string) : option string :=
  match parse sql with
  | None => None
  | Some [] => Some (strip sql)
  | Some (statement :: _) =>
      match process_tokens (tokens statement) with
      | Some ts => Some (strip (str_list ts))
      | None => None
      end
  end.


End Normalizer.

(** ** The Prompt Builder *)

Module PromptBuilder.

(** [s.split(sep)] for a separator that is not empty: [skip] counts the
    characters of a separator that are still to be passed over, [piece]
    holds the current piece, last character first. *)
Fixpoint split_from (sep : string) (skip : nat) (piece : list ascii)
  (s : string) : list string :=
  match s with
  | EmptyString => [string_of_list_ascii (rev piece)]
  | String c s' =>
      match skip with
      | S k => split_from sep k piece s'
      | O =>
          if String.prefix sep s
          then string_of_list_ascii (rev piece)
               :: split_from sep (String.length sep - 1) [] s'
          else split_from sep 0 (c :: piece) s'
      end
  end.

Definition split (s sep : string) : list string := split_from sep 0 [] s.

Definition is_empty (s : string) : bool :=
  match s with EmptyString => true | String _ _ => false end.

(** The prompt template of [build_prompt_from_files]: the text before the schema. *)
Definition prompt_rules : string :=
  double_quote
  ++ "  You are an expert PostgreSQL data analyst and query optimization specialist. Your sole purpose is to convert a business question into a single, high-performance, and syntactically correct PostgreSQL query based on the provided schema and rules.

---
### ## Core Directives
1.  **Output Format:** You MUST respond ONLY with the raw SQL query. Do NOT include markdown code blocks (like ```sql), explanations, or any other text.
2.  **Schema Adherence:** You MUST use ONLY the tables and columns provided in the schema below. Verify that every column you use exists in the specified table. Do not invent or assume any others.
3.  **Error Handling:** If the question cannot be answered with the provided schema, you MUST reply with the exact text: "
  ++ double_quote
  ++ "Error: The question cannot be answered with the available schema."
  ++ double_quote
  ++ "
4.  **Dialect Compliance:** The query MUST be 100% compliant with the PostgreSQL dialect.

---
### ## SQL Logic & Structure Rules
1.  **GROUP BY Rule:** When a `SELECT` statement includes an aggregate function (e.g., `SUM`, `COUNT`) alongside a regular column, that regular column MUST be in the `GROUP BY` clause.
    * **INCORRECT:** `SELECT department, SUM(sales) FROM orders;`
    * **CORRECT:** `SELECT department, SUM(sales) FROM orders GROUP BY department;`

2.  **Filtering Aggregates (`HAVING` Clause):** To filter on the result of an aggregate function (`COUNT()`, `SUM()`, etc.), you MUST use the `HAVING` clause after the `GROUP BY`. You MUST NOT use aggregate functions in the `WHERE` clause.

3.  **Filtering Window Functions (`ROW_NUMBER`)**: To filter on the result of a window function (`ROW_NUMBER()`, `RANK()`, etc.), you MUST first compute it in a Common Table Expression (CTE) or a subquery, and then apply the filter to the result in the outer query.

4.  **Filtering Rows (`WHERE` Clause):** The `WHERE` clause must perfectly match the conditions and timeframes from the user's question. Do not add any "
  ++ double_quote
  ++ "hallucinated"
  ++ double_quote
  ++ " filters that were not requested.

5.  **Cumulative Totals:** Do not calculate a cumulative total (e.g., a running sum) unless the user explicitly asks for it.

6.  **Table Aliases:** Use short, non-reserved words for aliases. Ensure every column in the `GROUP BY` and `ORDER BY` clauses belongs to the correct table alias (e.g., `o.customer_id`).

---
### ## Business Context & Schema

* **Join Key:** The `ssa_category_data` and `ssa_order_data` tables join on `variant_sku` and `sku`.
* **Key Dimensions:** `order_date`, `title`, `customer_type`, `super_category`, `category`, `flavour`.
* **Key Metrics:** `sales_revenue`, `sales_discount`, `order_quantity`.

### Database Schema:
".

(** The prompt template of [build_prompt_from_files]: the text between the schema and the examples. *)
Definition prompt_after_schema : string :=
  "
---
".

(** The prompt template of [build_prompt_from_files]: the text between the examples and the question. *)
Definition prompt_task : string :=
  "
---

### New Task:
**User Question:** ".

(** The prompt template of [build_prompt_from_files]: the text after the question. *)
Definition prompt_end : string :=
  "

**SQL Query:**
".

(** The blocks of the example file: [[ex.strip() for ex in
    examples_raw.strip().split('###') if ex.strip()]]. *)
Definition parse_examples (examples_raw : string) : list string :=
  map strip
    (filter (fun ex => negb (is_empty (strip ex)))
       (split (strip examples_raw) "###")).

(** The loop over [enumerate(selected_examples)]; [parts[1]] raises
    [IndexError] on a block without the separator. *)
Fixpoint format_examples (i : nat) (selected_examples : list string)
  (formatted_examples : string) : exn + string :=
  match selected_examples with
  | [] => inr formatted_examples
  | block :: more =>
      match split (strip block) "---" with
      | question :: query :: _ =>
          format_examples (S i) more
            (formatted_examples
             ++ "### Example " ++ str_of_int (Z.of_nat i + 1) ++ ":"
             ++ String "010" (String "010" ("**" ++ strip question ++ "**"))
             ++ String "010" (String "010" ("**" ++ strip query ++ "**"))
             ++ String "010" (String "010" EmptyString))
      | _ => inl IndexError
      end
  end.

End PromptBuilder.

Import PromptBuilder.

Section Loop.
Context {W : Type} (env : Env W).
Variable parse : string -> option (list token).
Local Open Scope py_scope.

Definition build_prompt_from_files
  (schema_string examples_file user_question : string) (num_examples : nat)
  : M W string :=
  fun w =>
    match read_text env examples_file w with
    | (CannotOpen, w1) => (inl (OSError examples_file), [], w1)
    | (CannotDecode reason, w1) => (inl (UnicodeDecodeError reason), [], w1)
    | (FileText examples_raw, w1) =>
        let all_examples := parse_examples examples_raw in
        let '(selected_examples, w2) :=
          if num_examples <? length all_examples
          then random_sample env all_examples num_examples w1
          else (all_examples, w1) in
        match format_examples 0 selected_examples EmptyString with
        | inl e => (inl e, [], w2)
        | inr formatted_examples =>
            (inr (prompt_rules ++ schema_string ++ prompt_after_schema
                  ++ formatted_examples ++ prompt_task ++ user_question
                  ++ prompt_end),
             [], w2)
        end
    end.

(** [query_olama]: the stripped response, or [None] when the call of the
    service raised. *)
Definition query_olama (prompt : string) : M W (option string) :=
  fun w =>
    let '(response, w') := ollama_generate env prompt w in
    (inr (option_map strip response), [EvGenerate prompt response], w').

(** ** The generation-validation loop *)

Definition examples_path : string := "prompt_components/examples.txt".

Definition refinement_instruction (user_question previous_sql user_feedback
  : string) : string :=
  let feedback_context :=
    String "010" "**User's Feedback on Why It Was Wrong:**"
    ++ String "010" user_feedback in
  "
The user was not satisfied with the result from the previous query.
Analyze the user's original question, the previous query, and the user's feedback.
Create a new, corrected PostgreSQL query. Return ONLY the final SQL.

**User's Original Question:** " ++ user_question ++ "
**Previous Incorrect SQL Query:** " ++ previous_sql ++ "
" ++ feedback_context ++ "
".

Definition fix_instructions (generated_sql error_message : string) : string :=
  "
The previously generated SQL query failed with a syntax error.
Analyze the schema, examples, user question, failed SQL, and the database error message.
Output ONLY the corrected, valid PostgreSQL query.

**Failed SQL Query:** " ++ generated_sql ++ "
**Database Error Message:** " ++ error_message ++ "
".

(** The text handed over as the question: the question itself, or the
    refinement instruction when both a previous query and a feedback are
    given and not empty. *)
Definition base_prompt_instruction (user_question : string)
  (previous_sql user_feedback : option string) : string :=
  match previous_sql, user_feedback with
  | Some (String _ _ as p), Some (String _ _ as f) =>
      refinement_instruction user_question p f
  | _, _ => user_question
  end.

Definition exhausted_message (max_syntax_retries : Z) (error_message : string)
  : string :=
  "Failed to generate a syntactically valid SQL query after "
  ++ str_of_int (max_syntax_retries + 1) ++ " attempts. "
  ++ "Last database error: " ++ error_message.

(** The normalizer inside the loop: an error of the parser leaves the
    loop as it is. *)
Definition normalize (cleaned_sql : string) : M W string :=
  match fix_postgres_sql parse cleaned_sql with
  | Some generated_sql => ret generated_sql
  | None => raise SQLParseError
  end.

Section Attempts.
Variables (enhanced_schema instruction : string) (max_syntax_retries : Z).

(** The [for] loop with [remaining] turns to go, [attempt] being the
    number of the next one; after the last turn the [raise] below the loop
    is reached. *)
Fixpoint attempts (remaining attempt : nat)
  (generated_sql error_message : string) : M W string :=
  match remaining with
  | O => raise (ValueError (exhausted_message max_syntax_retries error_message))
  | S remaining' =>
      prompt <-
        (if attempt =? 0
         then build_prompt_from_files enhanced_schema examples_path
                instruction 3
         else build_prompt_from_files enhanced_schema examples_path
                (instruction ++ String "010" (String "010"
                   (fix_instructions generated_sql error_message))) 3) ;;
      generated_sql_raw <- query_olama prompt ;;
      let cleaned_sql := clean_sql_output generated_sql_raw in
      generated_sql <- normalize cleaned_sql ;;
      answer <- is_query_valid env generated_sql ;;
      emit (EvValidate generated_sql (fst answer) (snd answer)) ;;;
      if fst answer then ret generated_sql
      else attempts remaining' (S attempt) generated_sql (snd answer)
  end.
End Attempts.

Definition generate_and_validate_sql
  (user_question enhanced_schema : string) (max_syntax_retries : Z)
  (previous_sql user_feedback : option string) : M W string :=
  attempts enhanced_schema
    (base_prompt_instruction user_question previous_sql user_feedback)
    max_syntax_retries
    (Z.to_nat (max_syntax_retries + 1)) 0 EmptyString EmptyString.

(** The default of the parameter [max_syntax_retries]. *)
Definition default_max_syntax_retries : Z := 2.

End Loop.

(** ** A small world to run the program in

    The generation service answers from a script, one entry per call; the
    example file and the answers of the database are fixed. *)
Module Demo.

Definition world : Type := list (option string).

Definition env (examples : option string) (db : string -> db_result)
  : Env world :=
  {| read_text :=
       fun _ w =>
         (match examples with
          | Some text => FileText text
          | None => CannotOpen
          end, w);
     random_sample := fun population k w => (firstn k population, w);
     ollama_generate :=
       fun _ w =>
         match w with
         | response :: w' => (response, w')
         | [] => (None, [])
         end;
     engine_execute := fun statement w => (db statement, w) |}.

Definition examples : string :=
  "How many orders?---SELECT COUNT(order_id) FROM ssa_order_data".

(** A database that plans [SELECT 1] and nothing else. *)
Definition db (statement : string) : db_result :=
  if String.eqb statement "EXPLAIN SELECT 1"
  then DbOk
  else DbProgrammingError "syntax error".

End Demo.

(** [sub] occurs in [s]. *)
Definition contains (s sub : string) : Prop :=
  exists before after, s = before ++ sub ++ after.

(** ** The shape of a run of the loop *)

(** The message that [is_query_valid] answers after a dry run. *)
Definition answer_message (a : db_result) : string :=
  match a with
  | DbOk => "OK"
  | DbProgrammingError orig => orig
  | DbOtherError e => "An unexpected error occurred: " ++ e
  end.

Definition accepted (a : db_result) : bool :=
  match a with DbOk => true | _ => false end.

Section Rounds.
Variable parse : string -> option (list token).
Variables (enhanced_schema instruction : string).

(** [prompt] is the template filled with the schema, some examples and
    [question]. *)
Definition asks (prompt question : string) : Prop :=
  exists formatted_examples,
    prompt = prompt_rules ++ enhanced_schema ++ prompt_after_schema
             ++ formatted_examples ++ prompt_task ++ question ++ prompt_end.

(** The question of a turn of the loop: the instruction on the first turn,
    and on a later one the instruction followed by the candidate and the
    message of the turn before. *)
Definition question_of (previous : option (string * string)) : string :=
  match previous with
  | None => instruction
  | Some (generated_sql, error_message) =>
      instruction ++ String "010" (String "010"
        (fix_instructions generated_sql error_message))
  end.

(** What the loop makes of a response of the generation service. *)
Definition candidate_of (response : option string) : option string :=
  fix_postgres_sql parse (clean_sql_output (option_map strip response)).

(** The traces of the loop, turn by turn: a turn is a call of the
    generation service, the dry run of the candidate if it passes the
    gate, and the answer of the Validator; [previous] holds the candidate
    and the message of the turn before. *)
Inductive rounds : option (string * string) -> list event -> Prop :=
| rounds_stop : forall previous, rounds previous []
| rounds_parser_error : forall previous prompt response,
    asks prompt (question_of previous) ->
    candidate_of response = None ->
    rounds previous [EvGenerate prompt response]
| rounds_gate : forall previous prompt response sql rest,
    asks prompt (question_of previous) ->
    candidate_of response = Some sql ->
    passes_gate sql = false ->
    rounds (Some (sql, rejection_message)) rest ->
    rounds previous
      (EvGenerate prompt response
       :: EvValidate sql false rejection_message :: rest)
| rounds_database : forall previous prompt response sql a rest,
    asks prompt (question_of previous) ->
    candidate_of response = Some sql ->
    passes_gate sql = true ->
    accepted a = false ->
    rounds (Some (sql, answer_message a)) rest ->
    rounds previous
      (EvGenerate prompt response
       :: EvExplain ("EXPLAIN " ++ sql) a
       :: EvValidate sql false (answer_message a) :: rest)
| rounds_valid : forall previous prompt response sql,
    asks prompt (question_of previous) ->
    candidate_of response = Some sql ->
    passes_gate sql = true ->
    rounds previous
      [EvGenerate prompt response;
       EvExplain ("EXPLAIN " ++ sql) DbOk;
       EvValidate sql true "OK"].

End Rounds.

(** ** What the normalizer looks for *)

(** The calls that the fixes 2 to 6 are written for: a name and a number
    of parameters. *)
Definition targeted (name : string) (n : nat) : bool :=
  String.eqb name "NOW" && (n =? 0)
  || String.eqb name "IFNULL" && (n =? 2)
  || String.eqb name "DATE" && (n =? 1)
  || String.eqb name "ROUND" && (n =? 2)
  || String.eqb name "FORMAT_DATE" && (n =? 2).

(** The leaves that fix 1 is written for. *)
Definition backticked (t : token) : bool :=
  match t with
  | Tok ty v => ttype_eqb ty Name_Quoted && startswith v "`" && endswith v "`"
  | Grp _ _ _ _ => false
  end.

(** A tree with no such leaf and no such call in it. *)
Fixpoint untargeted (t : token) : bool :=
  match t with
  | Tok _ _ => negb (backticked t)
  | Grp c _ _ ts =>
      forallb untargeted ts
      && (if class_eqb c Function then
            match func_name ts with
            | None => true
            | Some EmptyString => true
            | Some name =>
                match get_parameters ts with
                | Some params => negb (targeted name (length params))
                | None => false
                end
            end
          else true)
  end.

(** What [rewrite_function] leaves alone: the children [ts] of a group
    of class [c] that is not a call, or is a call that is not targeted. *)
Definition kept (c : group_class) (ts : list token) : bool :=
  if class_eqb c Function then
    match func_name ts with
    | None => true
    | Some EmptyString => true
    | Some name =>
        match get_parameters ts with
        | Some params => negb (targeted name (length params))
        | None => false
        end
    end
  else true.



(** ** The analysis of a result and the query endpoint

    [get_llm_analysis] of [logic.py] and [handle_query] of [main.py].  The
    libraries that [handle_query] goes through are given by what the
    program uses of them: a [DataFrame] of [pandas] by its shape, its
    rendering and its records; [pd.read_sql] by an oracle of the world; an
    exception of a library by its text and by whether its class derives
    from [ValueError], which is what the handlers of [handle_query] tell
    apart.  The rendering of a table by [to_markdown] is taken to be at
    hand. *)

Module Api.

(** A result table: [df.shape], [df.to_markdown(index=False)] and
    [df.to_dict(orient='records')], one list of column and value per
    row. *)
Record DataFrame : Type := {
  shape : nat * nat;
  to_markdown : string;
  to_dict : list (list (string * string))
}.

(** [df.empty]: one of the two axes has length 0. *)
Definition empty (df : DataFrame) : bool :=
  (fst (shape df) =? 0) || (snd (shape df) =? 0).

Record LibraryError : Type := {
  is_value_error : bool;
  text : string
}.

(** The exceptions inside [handle_query]: those of the program's own
    functions, and those of the libraries. *)
Inductive py_exception : Type :=
| Raised (e : exn)
| Library (e : LibraryError).

(** The events of a request: those of the loop and of the analysis, and
    the call [pd.read_sql(text(statement), connection)]. *)
Inductive api_event : Type :=
| Core (e : event)
| EvReadSql (statement : string).

Definition is_read_sql (e : api_event) : bool :=
  match e with EvReadSql _ => true | Core _ => false end.

(** [schemas.py] *)
Record QueryRequest : Type := {
  question : string;
  previous_sql : option string;
  feedback : option string
}.

Record QueryResponse : Type := {
  analysis : string;
  sql_query : string;
  data : list (list (string * string))
}.

Inductive HTTPException : Type :=
| HTTPError (status_code : nat) (detail : string).

(** The world of the endpoint: that of the loop, and
    - [read_sql statement]: [pd.read_sql] on a connection of its own, the
      table or the exception raised;
    - [str_exn e]: [str(e)] for an exception of the program that carries
      no text here;
    - [validation_error]: what [QueryResponse(...)] raises on a field of
      the wrong type. *)
Record World (W : Type) : Type := {
  env : Env W;
  read_sql : string -> W -> (LibraryError + DataFrame) * W;
  str_exn : exn -> string;
  validation_error : LibraryError
}.

Arguments env {W} _.
Arguments read_sql {W} _ _ _.
Arguments str_exn {W} _ _.
Arguments validation_error {W} _.

(** A computation inside the [try] of [handle_query]. *)
Definition Body (W X : Type) : Type :=
  W -> (py_exception + X) * list api_event * W.

Definition api_ret {W X} (x : X) : Body W X := fun w => (inr x, [], w).

Definition api_raise {W X} (e : py_exception) : Body W X :=
  fun w => (inl e, [], w).

Definition api_bind {W X Y} (m : Body W X) (k : X -> Body W Y) : Body W Y :=
  fun w =>
    match m w with
    | (inl e, t, w') => (inl e, t, w')
    | (inr x, t, w') =>
        match k x w' with
        | (r, t', w'') => (r, (t ++ t')%list, w'')
        end
    end.

(** A call of a function of [logic.py]. *)
Definition lift {W X} (m : M W X) : Body W X :=
  fun w =>
    match m w with
    | (inl e, t, w') => (inl (Raised e), map Core t, w')
    | (inr x, t, w') => (inr x, map Core t, w')
    end.

Declare Scope api_scope.
Delimit Scope api_scope with api.
Notation "x <- m ;; k" := (api_bind m (fun x => k))
  (at level 61, m at next level, right associativity) : api_scope.

Definition result {E X T W} (r : (E + X) * list T * W) : E + X :=
  fst (fst r).
Definition events {E X T W} (r : (E + X) * list T * W) : list T :=
  snd (fst r).

Definition no_results_message : string :=
  "The query returned no results. There is nothing to analyze.".

Definition single_value_instruction : string :=
  "You are a senior business strategist and data analyst."
  ++ "Your task is to transform a draft data analysis into a polished and concise executive summary suitable for leadership. "
  ++ "briefly explain what this number represents in a formal, easy-to-understand sentence. Dont utilize (**) aur any kinds of special characters."
  ++ "Keep it extremely professional and formal while displaying your findings.".

Definition analysis_prompt
  (user_question sql_query data_string analysis_instruction : string)
  : string :=
  "
The user asked the following question:
" ++ double_quote ++ user_question ++ double_quote ++ "

To answer this, the following SQL query was executed:
```sql
" ++ sql_query ++ "
It produced this result:

Markdown

" ++ data_string ++ "
Your Task:
" ++ analysis_instruction ++ "
".

Section Endpoint.
Context {W : Type} (world : World W).
Variable parse : string -> option (list token).

(** [get_llm_analysis]; in the branch of a table the instruction is the
    empty text: the template that follows it in the source is a statement
    of its own. *)
Definition get_llm_analysis (user_question : string) (df : DataFrame)
  (sql_query : string) : M W (option string) :=
  if empty df then
    ret (Some no_results_message)
  else
    let data_string := to_markdown df in
    let analysis_instruction :=
      if ((fst (shape df) =? 1) && (snd (shape df) =? 1))%bool
      then single_value_instruction
      else EmptyString in
    query_olama (env world)
      (analysis_prompt user_question sql_query data_string
         analysis_instruction).

Definition schema_path : string := "schema_documentation.md".

(** [with open("schema_documentation.md", "r") as f: f.read()] *)
Definition read_schema : Body W string :=
  fun w =>
    match read_text (env world) schema_path w with
    | (FileText enhanced_schema, w') => (inr enhanced_schema, [], w')
    | (CannotOpen, w') => (inl (Raised (OSError schema_path)), [], w')
    | (CannotDecode reason, w') =>
        (inl (Raised (UnicodeDecodeError reason)), [], w')
    end.

(** [with engine.connect() as connection: pd.read_sql(...)] *)
Definition execute (final_sql : string) : Body W DataFrame :=
  fun w =>
    match read_sql world final_sql w with
    | (inr df, w') => (inr df, [EvReadSql final_sql], w')
    | (inl e, w') => (inl (Library e), [EvReadSql final_sql], w')
    end.

(** [QueryResponse(analysis=..., sql_query=..., data=...)]: the field
    [analysis] is a [str], so that [None] is refused. *)
Definition new_response (llm_summary : option string) (final_sql : string)
  (data_as_json : list (list (string * string))) : Body W QueryResponse :=
  match llm_summary with
  | Some a =>
      api_ret
        {| analysis := a; sql_query := final_sql; data := data_as_json |}
  | None => api_raise (Library (validation_error world))
  end.

(** The body of the [try] of [handle_query]. *)
Definition query_steps (request : QueryRequest) : Body W QueryResponse :=
  (enhanced_schema <- read_schema ;;
   final_sql <-
     lift (generate_and_validate_sql (env world) parse (question request)
             enhanced_schema default_max_syntax_retries
             (previous_sql request) (feedback request)) ;;
   df <- execute final_sql ;;
   llm_summary <- lift (get_llm_analysis (question request) df final_sql) ;;
   let data_as_json := to_dict df in
   new_response llm_summary final_sql data_as_json)%api.

(** [isinstance(e, ValueError)] and [str(e)] *)
Definition value_error (e : py_exception) : bool :=
  match e with
  | Raised (ValueError _) => true
  | Raised (UnicodeDecodeError _) => true
  | Raised _ => false
  | Library e' => is_value_error e'
  end.

Definition str_exception (e : py_exception) : string :=
  match e with
  | Raised (ValueError msg) => msg
  | Raised (UnicodeDecodeError reason) => reason
  | Raised e' => str_exn world e'
  | Library e' => text e'
  end.

Definition handle_query (request : QueryRequest)
  : W -> (HTTPException + QueryResponse) * list api_event * W :=
  fun w =>
    match query_steps request w with
    | (inr response, t, w') => (inr response, t, w')
    | (inl e, t, w') =>
        if value_error e
        then (inl (HTTPError 400 (str_exception e)), t, w')
        else (inl (HTTPError 500
                     ("An unexpected error occurred: " ++ str_exception e)),
              t, w')
    end.

End Endpoint.

(** A world for the endpoint: that of [Demo], a database that answers
    every query with the same table, of one row and one column. *)
Definition demo_frame : DataFrame :=
  {| shape := (1, 1);
     to_markdown := "|   count |" ++ String "010" "|--------:|"
                    ++ String "010" "|      42 |";
     to_dict := [[("count", "42")]] |}.

Definition demo : World Demo.world :=
  {| env := Demo.env (Some Demo.examples) Demo.db;
     read_sql := fun _ w => (inr demo_frame, w);
     str_exn := fun _ => "error";
     validation_error :=
       {| is_value_error := true;
          text := "1 validation error for QueryResponse" |} |}.

End Api.

(** * Theorems *)

Section ValidatorFacts.
Context {W : Type} (env : Env W).

(** C1: whatever [str.strip] and [str.upper] make of a text, of the ASCII
    range or not, a candidate whose trimmed, uppercased form starts with
    neither SELECT nor WITH is answered (false, the fixed rejection
    message), and the run causes no event at all, so the database is not
    asked for a dry run and the world is left as it was. *)
Theorem is_query_valid_rejects_non_read_only :
  forall (py_strip py_upper : string -> string) (sql_query : string) (w : W),
    startswith (py_upper (py_strip sql_query)) "SELECT" = false ->
    startswith (py_upper (py_strip sql_query)) "WITH" = false ->
    is_query_valid_with env py_strip py_upper sql_query w
    = (inr (false,
            "Validation failed: Only SELECT or CTE statements can be checked."),
       [], w)
    /\ filter is_explain
         (trace (is_query_valid_with env py_strip py_upper sql_query w)) = [].
Proof.
  intros py_strip py_upper sql_query w Hs Hw.
  assert (E : is_query_valid_with env py_strip py_upper sql_query w
              = (inr (false, rejection_message), [], w)).
  { unfold is_query_valid_with, gate. rewrite Hs, Hw. reflexivity. }
  split; [exact E | rewrite E; reflexivity].
Qed.

(** C10: the gate of the Validator tests a prefix, not a word: every
    string whose trimmed, uppercased form begins with the letters of SELECT
    or of WITH goes on to the dry run, which is asked for [EXPLAIN] and the
    string as it was given, and the answer of the Validator is then the
    answer of the database, not the fixed rejection; [WITHDRAW ...] and
    [SELECTION ...] are such strings. *)
Theorem is_query_valid_gate_is_prefix_test :
  forall (sql_query : string) (w : W),
    startswith (upper (strip sql_query)) "SELECT" = true
    \/ startswith (upper (strip sql_query)) "WITH" = true ->
    let answer := fst (engine_execute env ("EXPLAIN " ++ sql_query) w) in
    trace (is_query_valid env sql_query w)
    = [EvExplain ("EXPLAIN " ++ sql_query) answer]
    /\ outcome (is_query_valid env sql_query w)
       = inr match answer with
             | DbOk => (true, "OK")
             | DbProgrammingError orig => (false, orig)
             | DbOtherError e => (false, "An unexpected error occurred: " ++ e)
             end
    /\ startswith (upper (strip "WITHDRAW 100 FROM accounts")) "WITH" = true
    /\ startswith (upper (strip "SELECTION of rows")) "SELECT" = true.
Proof.
  intros sql_query w H answer. subst answer.
  assert (G : passes_gate sql_query = true).
  { unfold passes_gate, gate. apply orb_true_iff. exact H. }
  unfold is_query_valid, is_query_valid_with.
  change (gate strip upper sql_query) with (passes_gate sql_query).
  rewrite G. cbn [negb].
  unfold bind, explain. cbv zeta.
  generalize ("EXPLAIN " ++ sql_query). intros statement.
  destruct (engine_execute env statement w) as [r w'].
  destruct r; cbn; repeat split.
Qed.

End ValidatorFacts.

(** C1 in the small world, on a statement that is not read-only. *)
Lemma is_query_valid_rejects_non_read_only_witness :
  is_query_valid (Demo.env (Some Demo.examples) Demo.db)
    "  drop table users" []
  = (inr (false,
          "Validation failed: Only SELECT or CTE statements can be checked."),
     [], [])
  /\ filter is_explain
       (trace (is_query_valid (Demo.env (Some Demo.examples) Demo.db)
                 "  drop table users" [])) = [].
Proof.
  apply (is_query_valid_rejects_non_read_only
           (Demo.env (Some Demo.examples) Demo.db) strip upper
           "  drop table users" []);
    reflexivity.
Defined.

(** C10 in the small world: [WITHDRAW ...] reaches the database. *)
Lemma is_query_valid_gate_is_prefix_test_witness :
  trace (is_query_valid (Demo.env (Some Demo.examples) Demo.db)
           "WITHDRAW 100 FROM accounts" [])
  = [EvExplain "EXPLAIN WITHDRAW 100 FROM accounts"
       (DbProgrammingError "syntax error")].
Proof.
  apply (is_query_valid_gate_is_prefix_test
           (Demo.env (Some Demo.examples) Demo.db)
           "WITHDRAW 100 FROM accounts" []).
  right. reflexivity.
Defined.





(** ** Facts on the extractor *)

Section ExtractorFacts.

Lemma drop_nil : forall n, drop n EmptyString = EmptyString.
Proof. destruct n; reflexivity. Qed.

Lemma substring_take_drop :
  forall s i n, substring i n s = take n (drop i s).
Proof.
  induction s as [|c s IH]; intros i n.
  - destruct i, n; reflexivity.
  - destruct i as [|i]; simpl.
    + destruct n as [|n]; [reflexivity|]. simpl. f_equal.
      rewrite (IH 0 n). destruct s; reflexivity.
    + apply IH.
Qed.

Lemma get_drop : forall s i n, String.get (i + n) s = String.get n (drop i s).
Proof.
  induction s as [|c s IH]; intros i n.
  - rewrite drop_nil. destruct (i + n), n; reflexivity.
  - destruct i as [|i]; [reflexivity|]. simpl. apply IH.
Qed.

Lemma get_head :
  forall s n,
    String.get n s
    = match drop n s with EmptyString => None | String c _ => Some c end.
Proof.
  induction s as [|c s IH]; intros n.
  - rewrite drop_nil. destruct n; reflexivity.
  - destruct n as [|n]; [reflexivity|]. simpl. apply IH.
Qed.

Lemma drop_S :
  forall s i c s', drop i s = String c s' -> drop (S i) s = s'.
Proof.
  induction s as [|d s IH]; intros i c s' H.
  - rewrite drop_nil in H. discriminate.
  - destruct i as [|i]; simpl in *.
    + injection H as _ H. subst. reflexivity.
    + apply (IH _ _ _ H).
Qed.

Lemma get_of_drop :
  forall s i c s', drop i s = String c s' -> String.get i s = Some c.
Proof.
  intros s i c s' H. replace i with (i + 0) by lia.
  rewrite get_drop, H. reflexivity.
Qed.

(** The letters of a keyword match when the text starts with them in some
    mix of cases. *)
Lemma match_literal_spec :
  forall kw s,
    match match_literal kw s with
    | Some rest =>
        upper (take (String.length kw) s) = upper kw
        /\ rest = drop (String.length kw) s
    | None => upper (take (String.length kw) s) <> upper kw
    end.
Proof.
  induction kw as [|k kw IH]; intros s; simpl.
  - split; reflexivity.
  - destruct s as [|c s]; simpl; [discriminate|].
    destruct (Ascii.eqb_spec (upper_char c) (upper_char k)) as [E|E].
    + specialize (IH s). destruct (match_literal kw s).
      * destruct IH as [H1 H2]. split; [rewrite E, H1; reflexivity|exact H2].
      * intros H. injection H as _ H. contradiction.
    + intros H. injection H as H _. contradiction.
Qed.

Lemma upper_S_is_word :
  forall c, upper_char c = "S"%char \/ upper_char c = "W"%char ->
            is_word c = true.
Proof.
  intros c.
  destruct c as [[] [] [] [] [] [] [] []]; vm_compute; intros [H|H];
    first [reflexivity | discriminate].
Qed.

Lemma match_keyword_head :
  forall s, match_keyword "SELECT" s || match_keyword "WITH" s = true ->
            head_is_word s = true.
Proof.
  intros s H. destruct s as [|c s]; [discriminate H|].
  simpl. apply upper_S_is_word.
  apply orb_true_iff in H. destruct H as [H|H]; unfold match_keyword in H;
    simpl in H;
    [left|right];
    match type of H with
    | context [Ascii.eqb ?a ?b] =>
        destruct (Ascii.eqb_spec a b) as [E|E]; [exact E|discriminate H]
    end.
Qed.

(** The closing test of [match_keyword] read on the whole text. *)
Lemma match_keyword_at :
  forall kw s i,
    upper kw = kw ->
    match_keyword kw (drop i s)
    = String.eqb (upper (substring i (String.length kw) s)) kw
      && no_word_at s (i + String.length kw).
Proof.
  intros kw s i Hkw. unfold match_keyword, no_word_at.
  rewrite substring_take_drop, get_drop.
  pose proof (match_literal_spec kw (drop i s)) as H.
  destruct (match_literal kw (drop i s)) as [rest|].
  - destruct H as [H1 H2]. rewrite H1, Hkw, String.eqb_refl. simpl.
    subst rest. unfold word_boundary. rewrite get_head.
    destruct (drop (String.length kw) (drop i s)); reflexivity.
  - rewrite Hkw in H. apply String.eqb_neq in H. rewrite H. reflexivity.
Qed.

Lemma match_here_token_at :
  forall s i, match_here (word_before s i) (drop i s) = token_at s i.
Proof.
  intros s i. unfold match_here, token_at, keyword_at.
  assert (Hhead : match_keyword "SELECT" (drop i s)
                  || match_keyword "WITH" (drop i s) = true ->
                  head_is_word (drop i s) = true)
    by apply match_keyword_head.
  rewrite !match_keyword_at in * by reflexivity.
  assert (Hw : (match i with O => true | S j => no_word_at s j end)
               = negb (word_before s i)).
  { destruct i; simpl; [reflexivity|]. rewrite negb_involutive. reflexivity. }
  rewrite Hw. unfold word_boundary.
  destruct (String.eqb (upper (substring i (String.length "SELECT") s)) "SELECT"),
    (no_word_at s (i + String.length "SELECT")),
    (String.eqb (upper (substring i (String.length "WITH") s)) "WITH"),
    (no_word_at s (i + String.length "WITH"));
    simpl in Hhead; try rewrite (Hhead eq_refl);
    destruct (word_before s i); simpl;
    try reflexivity; destruct (head_is_word (drop i s)); reflexivity.
Qed.

Lemma token_at_beyond :
  forall s i, String.length s < i -> token_at s i = false.
Proof.
  intros s i H. rewrite <- match_here_token_at.
  assert (E : drop i s = EmptyString).
  { revert i H. induction s as [|c s IH]; intros i H.
    - apply drop_nil.
    - destruct i as [|i]; [simpl in H; lia|]. simpl. apply IH. simpl in H. lia. }
  rewrite E. unfold match_here. rewrite andb_false_r. reflexivity.
Qed.

(** [re.search] finds the first index where a token stands. *)
Lemma search_from_spec :
  forall n s pos,
    String.length (drop pos s) = n ->
    match search_from (word_before s pos) (drop pos s) pos with
    | Some k =>
        pos <= k /\ token_at s k = true
        /\ forall j, pos <= j -> j < k -> token_at s j = false
    | None => forall j, pos <= j -> token_at s j = false
    end.
Proof.
  induction n as [|n IH]; intros s pos Hn.
  - destruct (drop pos s) as [|c r] eqn:E; [|discriminate Hn].
    simpl. pose proof (match_here_token_at s pos) as Hm. rewrite E in Hm.
    destruct (match_here (word_before s pos) EmptyString) eqn:Hh.
    + repeat split; [lia|symmetry; exact Hm|intros; lia].
    + unfold match_here in Hh. intros j Hj.
      destruct (Nat.eq_dec j pos) as [->|Hne]; [symmetry; exact Hm|].
      rewrite <- match_here_token_at.
      assert (Ej : drop j s = EmptyString).
      { replace j with ((j - pos) + pos) by lia.
        clear - E. revert E. generalize (j - pos) as d.
        intros d. revert s pos. induction d as [|d IHd]; intros s pos E.
        - exact E.
        - replace (S d + pos) with (d + S pos) by lia. apply IHd.
          revert E. clear. revert pos.
          induction s as [|c s IHs]; intros pos E;
            [apply drop_nil|].
          destruct pos as [|pos]; [discriminate E|]. simpl in *.
          apply IHs. exact E. }
      rewrite Ej. unfold match_here. rewrite andb_false_r. reflexivity.
  - destruct (drop pos s) as [|c r] eqn:E; [discriminate Hn|].
    simpl. pose proof (match_here_token_at s pos) as Hm. rewrite E in Hm.
    destruct (match_here (word_before s pos) (String c r)) eqn:Hh.
    + repeat split; [lia|symmetry; exact Hm|intros; lia].
    + assert (Ew : is_word c = word_before s (S pos)).
      { simpl. unfold no_word_at. rewrite (get_of_drop _ _ _ _ E).
        rewrite negb_involutive. reflexivity. }
      rewrite Ew. rewrite <- (drop_S _ _ _ _ E).
      assert (Hlen : String.length (drop (S pos) s) = n).
      { rewrite (drop_S _ _ _ _ E). simpl in Hn. lia. }
      specialize (IH s (S pos) Hlen).
      destruct (search_from (word_before s (S pos)) (drop (S pos) s) (S pos))
        as [k|].
      * destruct IH as (H1 & H2 & H3). repeat split; [lia|exact H2|].
        intros j Hj Hk. destruct (Nat.eq_dec j pos) as [->|Hne].
        -- symmetry; exact Hm.
        -- apply H3; lia.
      * intros j Hj. destruct (Nat.eq_dec j pos) as [->|Hne].
        -- symmetry; exact Hm.
        -- apply IH; lia.
Qed.

Lemma re_search_spec :
  forall s,
    match re_search s with
    | Some k =>
        token_at s k = true /\ forall j, j < k -> token_at s j = false
    | None => forall j, token_at s j = false
    end.
Proof.
  intros s. pose proof (search_from_spec (String.length s) s 0 eq_refl) as H.
  unfold re_search. simpl in H.
  destruct (search_from false s 0) as [k|].
  - destruct H as (_ & H2 & H3). split; [exact H2|]. intros j Hj.
    apply H3; lia.
  - intros j. apply H. lia.
Qed.

Lemma find_seq_first :
  forall (p : nat -> bool) len start k,
    start <= k -> k < start + len -> p k = true ->
    (forall j, start <= j -> j < k -> p j = false) ->
    find p (seq start len) = Some k.
Proof.
  intros p. induction len as [|len IH]; intros start k H1 H2 Hk Hbefore.
  - lia.
  - simpl. destruct (Nat.eq_dec start k) as [->|Hne].
    + rewrite Hk. reflexivity.
    + rewrite (Hbefore start) by lia. apply IH; try lia; [exact Hk|].
      intros j Hj1 Hj2. apply Hbefore; lia.
Qed.

Lemma find_seq_none :
  forall (p : nat -> bool) len start,
    (forall j, p j = false) -> find p (seq start len) = None.
Proof.
  intros p. induction len as [|len IH]; intros start H; simpl.
  - reflexivity.
  - rewrite (H start). apply IH, H.
Qed.

(** The search of the regular expression is the search for the first
    index where a token stands. *)
Lemma re_search_first_token :
  forall s, re_search s = first_token s.
Proof.
  intros s. unfold first_token. pose proof (re_search_spec s) as H.
  destruct (re_search s) as [k|].
  - destruct H as [Hk Hbefore]. symmetry.
    apply find_seq_first; [lia| |exact Hk|intros; apply Hbefore; lia].
    destruct (Nat.lt_ge_cases (String.length s) k) as [Hlt|Hge]; [|lia].
    rewrite (token_at_beyond s k Hlt) in Hk. discriminate.
  - symmetry. apply find_seq_none, H.
Qed.

Lemma rfind_spec :
  forall c s,
    match rfind c s with
    | Some p =>
        String.get p s = Some c
        /\ forall q, p < q -> String.get q s <> Some c
    | None => forall q, String.get q s <> Some c
    end.
Proof.
  intros c. induction s as [|d s IH]; simpl.
  - intros q. destruct q; discriminate.
  - destruct (rfind c s) as [p|].
    + destruct IH as [H1 H2]. split; [exact H1|].
      intros q Hq. destruct q as [|q]; [lia|]. simpl. apply H2. lia.
    + destruct (Ascii.eqb_spec d c) as [->|Hne].
      * split; [reflexivity|]. intros q Hq. destruct q as [|q]; [lia|].
        simpl. apply IH.
      * intros q. destruct q as [|q]; simpl; [congruence|apply IH].
Qed.

Lemma clean_sql_output_unfold :
  forall raw,
    clean_sql_output (Some raw)
    = match re_search raw with
      | None => EmptyString
      | Some start =>
          strip match rfind ";" (drop start raw) with
                | Some p => take (p + 1) (drop start raw)
                | None => drop start raw
                end
      end.
Proof. intros [|c raw]; reflexivity. Qed.


Section UnicodeExtractorFacts.

Variable U : Unicode.

Lemma is_word_ascii : forall c, is_word c = true -> beyond_ascii c = false.
Proof.
  intros c H. unfold beyond_ascii. apply Nat.leb_gt.
  destruct (Ascii.eqb c "_") eqn:Hu.
  - apply Ascii.eqb_eq in Hu. subst c. vm_compute. lia.
  - unfold is_word, is_upper, is_lower, is_digit in H. rewrite Hu in H.
    rewrite !orb_true_iff, !andb_true_iff, !Nat.leb_le in H. lia.
Qed.

Lemma word_before_with_S :
  forall i s p c r,
    drop i s = String c r ->
    word_before_with U p s (S i)
    = head_is_word_with U (word_before_with U p s i) (drop i s).
Proof.
  induction i as [|i IH]; intros s p c r E.
  - destruct s as [|d s]; [discriminate E|]. reflexivity.
  - destruct s as [|d s]; [discriminate E|].
    change (word_before_with U p (String d s) (S (S i)))
      with (word_before_with U (head_is_word_with U p (String d s)) s (S i)).
    rewrite (IH s _ c r E). reflexivity.
Qed.

Lemma match_here_with_nil :
  forall p, match_here_with U p EmptyString = false.
Proof. intros p. unfold match_here_with. apply andb_false_r. Qed.

Lemma drop_beyond :
  forall s i j, drop i s = EmptyString -> i <= j -> drop j s = EmptyString.
Proof.
  induction s as [|c s IH]; intros i j E Hle; [apply drop_nil|].
  destruct i as [|i]; [discriminate E|].
  destruct j as [|j]; [lia|]. simpl in *. apply (IH i); [exact E|lia].
Qed.

Lemma search_from_with_spec :
  forall n s pos,
    String.length (drop pos s) = n ->
    match search_from_with U (word_before_with U false s pos) (drop pos s) pos
    with
    | Some k =>
        pos <= k /\ token_at_with U s k = true
        /\ forall j, pos <= j -> j < k -> token_at_with U s j = false
    | None => forall j, pos <= j -> token_at_with U s j = false
    end.
Proof.
  induction n as [|n IH]; intros s pos Hn.
  - destruct (drop pos s) as [|c r] eqn:E; [|discriminate Hn].
    cbn [search_from_with]. rewrite match_here_with_nil.
    intros j Hj. unfold token_at_with.
    rewrite (drop_beyond s pos j E Hj). apply match_here_with_nil.
  - destruct (drop pos s) as [|c r] eqn:E; [discriminate Hn|].
    cbn [search_from_with].
    destruct (match_here_with U (word_before_with U false s pos) (String c r))
      eqn:Hh.
    + unfold token_at_with. rewrite E.
      repeat split; [lia|exact Hh|intros; lia].
    + pose proof (word_before_with_S pos s false c r E) as Hw.
      rewrite E in Hw. rewrite <- Hw. rewrite <- (drop_S _ _ _ _ E).
      assert (Hlen : String.length (drop (S pos) s) = n).
      { rewrite (drop_S _ _ _ _ E). simpl in Hn. lia. }
      specialize (IH s (S pos) Hlen).
      assert (Hm : token_at_with U s pos = false).
      { unfold token_at_with. rewrite E. exact Hh. }
      destruct (search_from_with U (word_before_with U false s (S pos))
                  (drop (S pos) s) (S pos)) as [k|].
      * destruct IH as (H1 & H2 & H3). repeat split; [lia|exact H2|].
        intros j Hj Hk. destruct (Nat.eq_dec j pos) as [->|Hne];
          [exact Hm|apply H3; lia].
      * intros j Hj. destruct (Nat.eq_dec j pos) as [->|Hne];
          [exact Hm|apply IH; lia].
Qed.

Lemma re_search_with_spec :
  forall s,
    match re_search_with U s with
    | Some k =>
        token_at_with U s k = true
        /\ forall j, j < k -> token_at_with U s j = false
    | None => forall j, token_at_with U s j = false
    end.
Proof.
  intros s. unfold re_search_with.
  pose proof (search_from_with_spec (String.length s) s 0 eq_refl) as H.
  cbn [word_before_with drop] in H.
  replace (drop 0 s) with s in H by (destruct s; reflexivity).
  destruct (search_from_with U false s 0) as [k|].
  - destruct H as (_ & H2 & H3). split; [exact H2|].
    intros j Hj. apply H3; lia.
  - intros j. apply H; lia.
Qed.

Lemma clean_sql_output_with_unfold :
  forall py_strip raw,
    re_search_with U EmptyString = None ->
    clean_sql_output_with U py_strip (Some raw)
    = match re_search_with U raw with
      | None => EmptyString
      | Some start =>
          py_strip match rfind ";" (drop start raw) with
                   | Some p => take (p + 1) (drop start raw)
                   | None => drop start raw
                   end
      end.
Proof. intros py_strip [|c raw] H; [rewrite H|]; reflexivity. Qed.

(** In a text of the ASCII range the tables are not consulted. *)

Lemma is_ascii_drop :
  forall s i, is_ascii s = true -> is_ascii (drop i s) = true.
Proof.
  induction s as [|c s IH]; intros i H; [rewrite drop_nil; reflexivity|].
  destruct i as [|i]; [exact H|]. simpl in *.
  apply andb_prop in H as [_ H]. apply IH. exact H.
Qed.

Lemma is_ascii_head :
  forall c s, is_ascii (String c s) = true -> beyond_ascii c = false.
Proof.
  intros c s H. simpl in H. apply andb_prop in H as [H _].
  unfold beyond_ascii. apply Nat.ltb_lt in H. apply Nat.leb_gt. exact H.
Qed.

Lemma head_is_word_with_ascii :
  forall p s, is_ascii s = true -> head_is_word_with U p s = head_is_word s.
Proof.
  intros p [|c s] H; [reflexivity|]. simpl.
  rewrite (is_ascii_head c s H). reflexivity.
Qed.

Lemma match_literal_with_ascii :
  forall kw s,
    is_ascii s = true -> match_literal_with U kw s = match_literal kw s.
Proof.
  induction kw as [|k kw IH]; intros s H; [reflexivity|].
  destruct s as [|c s]; [reflexivity|]. simpl.
  rewrite (is_ascii_head c s H).
  simpl in H. apply andb_prop in H as [_ H]. rewrite (IH s H). reflexivity.
Qed.

Lemma match_literal_ascii :
  forall kw s rest,
    is_ascii s = true -> match_literal kw s = Some rest ->
    is_ascii rest = true.
Proof.
  induction kw as [|k kw IH]; intros s rest H E.
  - injection E as <-. exact H.
  - destruct s as [|c s]; [discriminate E|]. simpl in E.
    destruct (Ascii.eqb (upper_char c) (upper_char k)); [|discriminate E].
    simpl in H. apply andb_prop in H as [_ H]. apply (IH s rest H E).
Qed.

Lemma match_here_with_ascii :
  forall p s, is_ascii s = true -> match_here_with U p s = match_here p s.
Proof.
  intros p s H. unfold match_here_with, match_here, word_boundary_with,
    word_boundary, match_keyword_with, match_keyword.
  rewrite (head_is_word_with_ascii p s H).
  rewrite !(match_literal_with_ascii _ s H).
  assert (Hk : forall kw,
             match match_literal kw s with
             | Some rest => word_boundary_with U true rest
             | None => false
             end
             = match match_literal kw s with
               | Some rest => word_boundary true rest
               | None => false
               end).
  { intros kw. destruct (match_literal kw s) as [rest|] eqn:E; [|reflexivity].
    unfold word_boundary_with, word_boundary.
    rewrite (head_is_word_with_ascii true rest
               (match_literal_ascii kw s rest H E)). reflexivity. }
  unfold word_boundary_with in Hk. unfold word_boundary in Hk.
  rewrite !Hk. reflexivity.
Qed.

Lemma word_before_with_ascii :
  forall i s,
    is_ascii s = true ->
    word_before_with U false s i = word_before s i.
Proof.
  assert (G : forall i s p,
             is_ascii s = true ->
             word_before_with U p s (S i) = word_before s (S i)).
  { induction i as [|i IH]; intros s p H.
    - destruct s as [|c s]; [reflexivity|]. simpl.
      rewrite (is_ascii_head c s H). unfold no_word_at. simpl.
      rewrite negb_involutive. reflexivity.
    - destruct s as [|c s]; [reflexivity|].
      change (word_before_with U p (String c s) (S (S i)))
        with (word_before_with U (head_is_word_with U p (String c s)) s (S i)).
      simpl in H. apply andb_prop in H as [_ H].
      rewrite (IH s _ H). reflexivity. }
  intros [|i] s H; [reflexivity|apply G; exact H].
Qed.

Lemma token_at_with_ascii :
  forall s i, is_ascii s = true -> token_at_with U s i = token_at s i.
Proof.
  intros s i H. unfold token_at_with.
  rewrite (word_before_with_ascii i s H).
  rewrite (match_here_with_ascii _ _ (is_ascii_drop s i H)).
  apply match_here_token_at.
Qed.

End UnicodeExtractorFacts.

(** The extractor of the program is the one whose tables know no character
    beyond ASCII. *)

Lemma head_is_word_ascii_only :
  forall p s, head_is_word_with ascii_only p s = head_is_word s.
Proof.
  intros p [|c s]; [reflexivity|]. simpl.
  destruct (beyond_ascii c) eqn:E; [|reflexivity].
  destruct (is_word c) eqn:Ew; [|reflexivity].
  rewrite (is_word_ascii c Ew) in E. discriminate.
Qed.

Lemma match_literal_ascii_only :
  forall kw s, match_literal_with ascii_only kw s = match_literal kw s.
Proof.
  induction kw as [|k kw IH]; intros s; [reflexivity|].
  destruct s as [|c s]; [reflexivity|]. simpl. rewrite IH.
  destruct (Ascii.eqb (upper_char c) (upper_char k)); [reflexivity|].
  destruct (beyond_ascii c); reflexivity.
Qed.

Lemma match_here_ascii_only :
  forall p s, match_here_with ascii_only p s = match_here p s.
Proof.
  intros p s. unfold match_here_with, match_here, word_boundary_with,
    word_boundary, match_keyword_with, match_keyword.
  rewrite head_is_word_ascii_only, !match_literal_ascii_only.
  destruct (match_literal "SELECT" s) as [r1|],
    (match_literal "WITH" s) as [r2|];
    unfold word_boundary_with, word_boundary;
    rewrite ?head_is_word_ascii_only; reflexivity.
Qed.

Lemma search_from_ascii_only :
  forall s p pos, search_from_with ascii_only p s pos = search_from p s pos.
Proof.
  induction s as [|c s IH]; intros p pos.
  - cbn [search_from_with search_from]. rewrite match_here_ascii_only.
    reflexivity.
  - cbn [search_from_with search_from]. rewrite match_here_ascii_only.
    rewrite head_is_word_ascii_only, IH. reflexivity.
Qed.

Lemma clean_sql_output_ascii_only :
  forall raw_output,
    clean_sql_output_with ascii_only strip raw_output
    = clean_sql_output raw_output.
Proof.
  intros [[|c raw]|]; try reflexivity.
  unfold clean_sql_output_with, clean_sql_output, re_search_with, re_search.
  rewrite search_from_ascii_only. reflexivity.
Qed.

(** C5: the extractor finds the first index where the pattern
    [\b(SELECT|WITH)\b] matches without regard to case, drops what is
    before it, cuts the rest after its last semicolon when it has one and
    keeps it whole otherwise, and strips the result; a text where the
    pattern matches nowhere, and the answer [None], give the empty string.
    This holds whatever [re] and [str.strip] make of the characters beyond
    ASCII.  In a text of the ASCII range the pattern matches where SELECT
    or WITH stands in any mix of cases with no word character on either
    side.  The extractor of the program is the one whose tables know no
    character beyond ASCII; on the sample answer it gives [SELECT 1;]. *)
Theorem clean_sql_output_spec :
  forall (U : Unicode) (py_strip : string -> string) (raw : string),
    (forall i,
        token_at_with U raw i = true ->
        (forall j, j < i -> token_at_with U raw j = false) ->
        exists kept,
          truncated_at_last ";" (drop i raw) kept
          /\ clean_sql_output_with U py_strip (Some raw) = py_strip kept)
    /\ ((forall i, token_at_with U raw i = false) ->
        clean_sql_output_with U py_strip (Some raw) = EmptyString)
    /\ clean_sql_output_with U py_strip None = EmptyString
    /\ (is_ascii raw = true ->
        forall i, token_at_with U raw i = token_at raw i)
    /\ (forall raw_output,
           clean_sql_output raw_output
           = clean_sql_output_with ascii_only strip raw_output)
    /\ clean_sql_output (Some sample_output) = "SELECT 1;".
Proof.
  intros U py_strip raw.
  assert (Hnil : re_search_with U EmptyString = None).
  { unfold re_search_with. cbn [search_from_with].
    rewrite match_here_with_nil. reflexivity. }
  refine (conj _ (conj _ (conj eq_refl (conj _ (conj _ eq_refl))))).
  - intros i Hi Hfirst. rewrite (clean_sql_output_with_unfold U _ _ Hnil).
    pose proof (re_search_with_spec U raw) as Hs.
    destruct (re_search_with U raw) as [k|].
    + destruct Hs as [Hk Hbefore].
      assert (k = i).
      { destruct (Nat.lt_trichotomy k i) as [Hlt|[Heq|Hgt]]; [|exact Heq|].
        - rewrite (Hfirst k Hlt) in Hk. discriminate.
        - rewrite (Hbefore i Hgt) in Hi. discriminate. }
      subst k. pose proof (rfind_spec ";" (drop i raw)) as Hr.
      destruct (rfind ";" (drop i raw)) as [p|].
      * exists (take (p + 1) (drop i raw)). split; [|reflexivity].
        left. exists p. destruct Hr as [H1 H2].
        repeat split; [exact H1|exact H2|]. rewrite Nat.add_1_r. reflexivity.
      * exists (drop i raw). split; [|reflexivity].
        right. split; [exact Hr|reflexivity].
    + rewrite (Hs i) in Hi. discriminate.
  - intros Hnone. rewrite (clean_sql_output_with_unfold U _ _ Hnil).
    pose proof (re_search_with_spec U raw) as Hs.
    destruct (re_search_with U raw) as [k|]; [|reflexivity].
    destruct Hs as [Hk _]. rewrite (Hnone k) in Hk. discriminate.
  - intros Ha i. apply token_at_with_ascii. exact Ha.
  - intros raw_output. symmetry. apply clean_sql_output_ascii_only.
Qed.

(** The specification at the sample answer: the token stands at index 13
    and the rest is cut after its semicolon. *)
Lemma clean_sql_output_spec_witness :
  exists kept,
    truncated_at_last ";" (drop 13 sample_output) kept
    /\ clean_sql_output_with ascii_only strip (Some sample_output)
       = strip kept.
Proof.
  apply (proj1 (clean_sql_output_spec ascii_only strip sample_output) 13).
  - reflexivity.
  - intros j Hj.
    do 13 (destruct j as [|j]; [reflexivity|]). lia.
Defined.

(** With tables that know the letters of the text, a keyword that follows
    a letter beyond ASCII is no token, and a keyword written with a letter
    that its pattern matches is one. *)
Lemma clean_sql_output_with_sample_tables :
  clean_sql_output_with sample_tables strip (Some (e_acute ++ "SELECT 1"))
  = EmptyString
  /\ clean_sql_output_with sample_tables strip
       (Some ("w" ++ dotted_I ++ "th t"))
     = "w" ++ dotted_I ++ "th t"
  /\ clean_sql_output_with sample_tables strip
       (Some ("a " ++ long_s ++ "elect 1; b"))
     = long_s ++ "elect 1;".
Proof. repeat split; vm_compute; reflexivity. Qed.

End ExtractorFacts.

(** ** Facts on the loop *)

Section LoopFacts.
Context {W : Type} (env : Env W).
Variable parse : string -> option (list token).

Lemma generation_calls_app :
  forall t t', generation_calls (t ++ t') = generation_calls t + generation_calls t'.
Proof.
  intros. unfold generation_calls. rewrite filter_app, length_app. reflexivity.
Qed.

Lemma validation_calls_app :
  forall t t', validation_calls (t ++ t') = validation_calls t + validation_calls t'.
Proof.
  intros. unfold validation_calls. rewrite filter_app, length_app. reflexivity.
Qed.

Lemma all_failed_app :
  forall t t', all_failed (t ++ t') = all_failed t && all_failed t'.
Proof. intros. apply forallb_app. Qed.

Lemma last_message_app :
  forall t t' m, last_message m (t ++ t') = last_message (last_message m t) t'.
Proof. intros. apply fold_left_app. Qed.

(** The Prompt Builder causes no event, and fails only on the example
    file: it cannot be opened, it cannot be decoded, or one of its blocks
    has no separator. *)
Lemma build_prompt_from_files_run :
  forall schema file question k w,
    trace (build_prompt_from_files env schema file question k w) = []
    /\ forall e,
        outcome (build_prompt_from_files env schema file question k w) = inl e ->
        e = OSError file \/ e = IndexError
        \/ exists reason w1,
             e = UnicodeDecodeError reason
             /\ read_text env file w = (CannotDecode reason, w1).
Proof.
  intros. unfold build_prompt_from_files.
  destruct (read_text env file w) as [[raw| |reason] w1] eqn:Hread.
  - destruct (if k <? length (parse_examples raw)
              then random_sample env (parse_examples raw) k w1
              else (parse_examples raw, w1)) as [sel w2].
    assert (Hf : forall i l acc e,
               format_examples i l acc = inl e -> e = IndexError).
    { intros i l. revert i. induction l as [|b l IH]; intros i acc e H.
      - discriminate.
      - simpl in H. destruct (split (strip b) "---") as [|q [|y ?]];
          try (injection H as <-; reflexivity).
        apply (IH _ _ _ H). }
    destruct (format_examples 0 sel EmptyString) as [e|p] eqn:E.
    + split; [reflexivity|]. intros e' H. injection H as <-.
      right. left. apply (Hf _ _ _ _ E).
    + split; [reflexivity|]. intros e' H. discriminate.
  - split; [reflexivity|]. intros e H. injection H as <-. left. reflexivity.
  - split; [reflexivity|]. intros e H. injection H as <-.
    right. right. exists reason, w1. split; reflexivity.
Qed.

(** The Validator never raises; it answers valid only after a dry run of
    the statement that the database accepted. *)
Lemma is_query_valid_run :
  forall sql w,
    exists v m w',
      is_query_valid env sql w
      = (inr (v, m),
         if passes_gate sql
         then [EvExplain ("EXPLAIN " ++ sql)
                 (fst (engine_execute env ("EXPLAIN " ++ sql) w))]
         else [],
         w')
      /\ (v = true ->
          passes_gate sql = true /\ m = "OK"
          /\ fst (engine_execute env ("EXPLAIN " ++ sql) w) = DbOk).
Proof.
  intros sql w. unfold is_query_valid, is_query_valid_with.
  change (gate strip upper sql) with (passes_gate sql).
  destruct (passes_gate sql); cbn [negb].
  - unfold bind, explain. cbv zeta.
    generalize ("EXPLAIN " ++ sql). intros statement.
    destruct (engine_execute env statement w) as [r w'].
    destruct r; cbn; do 3 eexists; (split; [reflexivity|]);
      intros H; try discriminate H. repeat split.
  - do 3 eexists. split; [reflexivity|]. intros H; discriminate H.
Qed.

(** One turn of the loop. *)
Lemma attempts_step :
  forall schema instruction n remaining attempt generated_sql error_message w,
    attempts env parse schema instruction n (S remaining) attempt
      generated_sql error_message w
    = match
        build_prompt_from_files env schema examples_path
          (if attempt =? 0 then instruction
           else instruction ++ String "010" (String "010"
                  (fix_instructions generated_sql error_message))) 3 w
      with
      | (inl e, t0, w0) => (inl e, t0, w0)
      | (inr prompt, t0, w0) =>
          let '(response, w1) := ollama_generate env prompt w0 in
          match
            fix_postgres_sql parse
              (clean_sql_output (option_map strip response))
          with
          | None =>
              (inl SQLParseError, (t0 ++ [EvGenerate prompt response])%list, w1)
          | Some sql =>
              match is_query_valid env sql w1 with
              | (inl e, t2, w2) =>
                  (inl e, (t0 ++ EvGenerate prompt response :: t2)%list, w2)
              | (inr (true, m), t2, w2) =>
                  (inr sql,
                   (t0 ++ EvGenerate prompt response :: t2
                    ++ [EvValidate sql true m])%list, w2)
              | (inr (false, m), t2, w2) =>
                  let '(r, t3, w3) :=
                    attempts env parse schema instruction n remaining
                      (S attempt) sql m w2 in
                  (r,
                   (t0 ++ EvGenerate prompt response :: t2
                    ++ EvValidate sql false m :: t3)%list, w3)
              end
          end
      end.
Proof.
  intros. cbn [attempts]. unfold bind at 1.
  replace (if attempt =? 0
           then build_prompt_from_files env schema examples_path instruction 3
           else build_prompt_from_files env schema examples_path
                  (instruction ++ String "010" (String "010"
                     (fix_instructions generated_sql error_message))) 3)
    with (build_prompt_from_files env schema examples_path
            (if attempt =? 0 then instruction
             else instruction ++ String "010" (String "010"
                    (fix_instructions generated_sql error_message))) 3)
    by (destruct (attempt =? 0); reflexivity).
  destruct (build_prompt_from_files env schema examples_path _ 3 w)
    as [[[e|prompt] t0] w0]; [reflexivity|].
  unfold bind at 1. unfold query_olama.
  destruct (ollama_generate env prompt w0) as [response w1].
  unfold bind at 1. unfold normalize.
  destruct (fix_postgres_sql parse (clean_sql_output (option_map strip response)))
    as [sql|]; [|cbn; reflexivity].
  unfold ret at 1. unfold bind at 1.
  destruct (is_query_valid env sql w1) as [[[e|[v m]] t2] w2];
    [cbn; reflexivity|].
  unfold bind at 1, emit. cbn [fst snd].
  destruct v.
  - cbn. reflexivity.
  - destruct (attempts env parse schema instruction n remaining (S attempt) sql m w2)
      as [[r t3] w3]. cbn. reflexivity.
Qed.

(** What a run of the loop with [remaining] turns to go looks like. *)
Lemma attempts_inv :
  forall schema instruction n remaining attempt generated_sql error_message w,
    let r := attempts env parse schema instruction n remaining attempt
               generated_sql error_message w in
    generation_calls (trace r) <= remaining
    /\ match outcome r with
       | inr sql =>
           exists before,
             trace r
             = (before ++ [EvExplain ("EXPLAIN " ++ sql) DbOk;
                           EvValidate sql true "OK"])%list
             /\ passes_gate sql = true
             /\ all_failed before = true
       | inl (ValueError m) =>
           m = exhausted_message n (last_message error_message (trace r))
           /\ validation_calls (trace r) = remaining
           /\ all_failed (trace r) = true
       | inl e =>
           (e = OSError examples_path \/ e = IndexError \/ e = SQLParseError
            \/ exists reason w0 w1,
                 e = UnicodeDecodeError reason
                 /\ read_text env examples_path w0 = (CannotDecode reason, w1))
           /\ validation_calls (trace r) < remaining
           /\ all_failed (trace r) = true
       end.
Proof.
  intros schema instruction n remaining.
  induction remaining as [|k IH]; intros attempt g e w r.
  - subst r. cbn. repeat split; lia.
  - subst r. rewrite attempts_step.
    match goal with
    | |- context [build_prompt_from_files env schema examples_path ?q 3 w] =>
        pose proof (build_prompt_from_files_run schema examples_path q 3 w)
          as [Ht He];
        destruct (build_prompt_from_files env schema examples_path q 3 w)
          as [[[ex|prompt] t0] w0]
    end; cbn [trace outcome fst snd] in Ht, He; subst t0.
    { cbn. split; [lia|].
      destruct (He ex eq_refl) as [-> | [-> | (reason & wr & -> & Hread)]];
        cbn; (split; [|split; [lia|reflexivity]]); eauto 10. }
    destruct (ollama_generate env prompt w0) as [response w1].
    destruct (fix_postgres_sql parse (clean_sql_output (option_map strip response)))
      as [sql|].
    2:{ cbn. repeat split; auto; lia. }
    destruct (is_query_valid_run sql w1) as (v & m & w2 & Hrun & Hv).
    rewrite Hrun. destruct v.
    + destruct (Hv eq_refl) as (Hgate & -> & Hdb).
      rewrite Hgate, Hdb. cbn. split; [lia|].
      exists [EvGenerate prompt response]. repeat split. exact Hgate.
    + specialize (IH (S attempt) sql m w2). cbv zeta in IH.
      destruct (attempts env parse schema instruction n k (S attempt) sql m w2)
        as [[r3 t3] w3].
      cbn [trace outcome fst snd app] in IH |- *.
      destruct IH as [Hgen Hout].
      set (t2 := if passes_gate sql
                 then [EvExplain ("EXPLAIN " ++ sql)
                         (fst (engine_execute env ("EXPLAIN " ++ sql) w1))]
                 else []) in *.
      assert (Ht2 : generation_calls t2 = 0 /\ validation_calls t2 = 0
                    /\ all_failed t2 = true
                    /\ forall s, last_message s t2 = s).
      { subst t2. destruct (passes_gate sql); repeat split. }
      destruct Ht2 as (G2 & V2 & F2 & L2).
      assert (Hg : generation_calls
                     (EvGenerate prompt response
                      :: t2 ++ EvValidate sql false m :: t3)
                   = S (generation_calls t3)).
      { change (EvGenerate prompt response :: t2 ++ EvValidate sql false m :: t3)
          with ([EvGenerate prompt response] ++ t2
                ++ [EvValidate sql false m] ++ t3)%list.
        rewrite !generation_calls_app, G2. reflexivity. }
      assert (Hval : validation_calls
                     (EvGenerate prompt response
                      :: t2 ++ EvValidate sql false m :: t3)
                   = S (validation_calls t3)).
      { change (EvGenerate prompt response :: t2 ++ EvValidate sql false m :: t3)
          with ([EvGenerate prompt response] ++ t2
                ++ [EvValidate sql false m] ++ t3)%list.
        rewrite !validation_calls_app, V2. reflexivity. }
      assert (Hf : all_failed
                     (EvGenerate prompt response
                      :: t2 ++ EvValidate sql false m :: t3)
                   = all_failed t3).
      { change (EvGenerate prompt response :: t2 ++ EvValidate sql false m :: t3)
          with ([EvGenerate prompt response] ++ t2
                ++ [EvValidate sql false m] ++ t3)%list.
        rewrite !all_failed_app, F2. reflexivity. }
      assert (Hl : last_message e
                     (EvGenerate prompt response
                      :: t2 ++ EvValidate sql false m :: t3)
                   = last_message m t3).
      { change (EvGenerate prompt response :: t2 ++ EvValidate sql false m :: t3)
          with ([EvGenerate prompt response] ++ t2
                ++ [EvValidate sql false m] ++ t3)%list.
        rewrite !last_message_app, L2. reflexivity. }
      rewrite Hg. split; [lia|].
      destruct r3 as [[msg| | | |]|sql'].
      * rewrite Hval, Hf, Hl. destruct Hout as (-> & <- & ->). repeat split.
      * rewrite Hval, Hf. destruct Hout as (H1 & H2 & H3).
        repeat split; [exact H1|lia|exact H3].
      * rewrite Hval, Hf. destruct Hout as (H1 & H2 & H3).
        repeat split; [exact H1|lia|exact H3].
      * rewrite Hval, Hf. destruct Hout as (H1 & H2 & H3).
        repeat split; [exact H1|lia|exact H3].
      * rewrite Hval, Hf. destruct Hout as (H1 & H2 & H3).
        repeat split; [exact H1|lia|exact H3].
      * destruct Hout as (before & -> & Hgate & Hb).
        exists (EvGenerate prompt response
                :: t2 ++ EvValidate sql false m :: before)%list.
        repeat split; [|exact Hgate|].
        -- cbn. rewrite <- app_assoc. reflexivity.
        -- change (EvGenerate prompt response
                   :: t2 ++ EvValidate sql false m :: before)
             with ([EvGenerate prompt response] ++ t2
                   ++ [EvValidate sql false m] ++ before)%list.
           rewrite !all_failed_app, F2, Hb. reflexivity.
Qed.

(** C2: for every behaviour of the world, so for every sequence of
    answers of the Validator, and every [max_syntax_retries] that is not
    negative, the loop calls the generation service at most
    [max_syntax_retries + 1] times and ends, with a candidate or with an
    exception; with the default of 2 that is at most 3 calls. *)
Theorem generate_and_validate_sql_bounded :
  forall user_question enhanced_schema (max_syntax_retries : Z)
         previous_sql user_feedback (w : W),
    (0 <= max_syntax_retries)%Z ->
    let r := generate_and_validate_sql env parse user_question enhanced_schema
               max_syntax_retries previous_sql user_feedback w in
    (Z.of_nat (generation_calls (trace r)) <= max_syntax_retries + 1)%Z
    /\ ((exists sql, outcome r = inr sql) \/ (exists e, outcome r = inl e))
    /\ generation_calls
         (trace (generate_and_validate_sql env parse user_question
                   enhanced_schema default_max_syntax_retries previous_sql
                   user_feedback w)) <= 3.
Proof.
  intros q schema n prev fb w Hn r. subst r.
  unfold generate_and_validate_sql. repeat split.
  - pose proof (attempts_inv schema (base_prompt_instruction q prev fb) n
                  (Z.to_nat (n + 1)) 0 EmptyString EmptyString w) as [H _].
    lia.
  - destruct (outcome _) as [e|sql]; [right|left]; eexists; reflexivity.
  - apply (attempts_inv schema (base_prompt_instruction q prev fb)
             default_max_syntax_retries 3 0 EmptyString EmptyString w).
Qed.

(** C6, as the program has it: when all [max_syntax_retries + 1] attempts
    were validated and none passed, the loop raises [ValueError] with a
    message that holds the number of attempts and the message of the last
    validation.  Failures of the generation service and of the database are
    taken up inside the loop; the exceptions that leave it are this
    [ValueError], raised only after all attempts failed, the errors of the
    Prompt Builder on the example file ([OSError] when it cannot be
    opened, [UnicodeDecodeError], itself a [ValueError], when it cannot be
    decoded, [IndexError] when a block has no separator) and the error of
    the SQL parser. *)
Theorem generate_and_validate_sql_exhausted :
  forall user_question enhanced_schema (max_syntax_retries : Z)
         previous_sql user_feedback (w : W),
    (0 <= max_syntax_retries)%Z ->
    let r := generate_and_validate_sql env parse user_question enhanced_schema
               max_syntax_retries previous_sql user_feedback w in
    let terminal :=
      ValueError
        ("Failed to generate a syntactically valid SQL query after "
         ++ str_of_int (max_syntax_retries + 1) ++ " attempts. "
         ++ "Last database error: " ++ last_message EmptyString (trace r)) in
    (validation_calls (trace r) = Z.to_nat (max_syntax_retries + 1) ->
     all_failed (trace r) = true ->
     outcome r = inl terminal)
    /\ (forall e,
          outcome r = inl e ->
          (e = terminal
           /\ validation_calls (trace r) = Z.to_nat (max_syntax_retries + 1)
           /\ all_failed (trace r) = true)
          \/ e = OSError examples_path
          \/ (exists reason, e = UnicodeDecodeError reason)
          \/ e = IndexError
          \/ e = SQLParseError).
Proof.
  intros q schema n prev fb w Hn r terminal. subst r terminal.
  unfold generate_and_validate_sql.
  pose proof (attempts_inv schema (base_prompt_instruction q prev fb) n
                (Z.to_nat (n + 1)) 0 EmptyString EmptyString w) as [_ H].
  cbv zeta in H.
  destruct (attempts env parse schema (base_prompt_instruction q prev fb) n
              (Z.to_nat (n + 1)) 0 EmptyString EmptyString w)
    as [[o t] w'].
  cbn [trace outcome fst snd] in *. split.
  - intros Hcalls Hfailed. destruct o as [[msg| | | |]|sql].
    + destruct H as (-> & _ & _). reflexivity.
    + destruct H as (_ & Hlt & _). lia.
    + destruct H as (_ & Hlt & _). lia.
    + destruct H as (_ & Hlt & _). lia.
    + destruct H as (_ & Hlt & _). lia.
    + destruct H as (before & -> & _ & _).
      rewrite all_failed_app in Hfailed. cbn in Hfailed.
      rewrite andb_false_r in Hfailed. discriminate.
  - intros e He. destruct o as [e'|sql]; [|discriminate].
    injection He as ->. destruct e as [msg|path|reason| |].
    + left. destruct H as (-> & H2 & H3). repeat split; assumption.
    + destruct H as ([H|[H|[H|(r & ? & ? & H & _)]]] & _);
        try discriminate H. auto.
    + right. right. left. exists reason. reflexivity.
    + auto.
    + auto 6.
Qed.


(** C8: a string that the loop returns was validated in the run that
    returns it, whatever the world was before: the run ends with the dry
    run of that string, accepted by the database, and the answer valid of
    the Validator on that string. *)
Theorem generate_and_validate_sql_validated :
  forall user_question enhanced_schema (max_syntax_retries : Z)
         previous_sql user_feedback (w : W) sql,
    outcome (generate_and_validate_sql env parse user_question enhanced_schema
               max_syntax_retries previous_sql user_feedback w) = inr sql ->
    exists before,
      trace (generate_and_validate_sql env parse user_question enhanced_schema
               max_syntax_retries previous_sql user_feedback w)
      = (before ++ [EvExplain ("EXPLAIN " ++ sql) DbOk;
                    EvValidate sql true "OK"])%list
      /\ passes_gate sql = true.
Proof.
  intros q schema n prev fb w sql Hout.
  unfold generate_and_validate_sql in *.
  pose proof (attempts_inv schema (base_prompt_instruction q prev fb) n
                (Z.to_nat (n + 1)) 0 EmptyString EmptyString w) as [_ H].
  cbv zeta in H. rewrite Hout in H.
  destruct H as (before & Ht & Hgate & _).
  exists before. split; assumption.
Qed.

End LoopFacts.

(** The runs of the loop in the small world that the theorems are tried
    on: every candidate is rejected; the first candidate is accepted; the
    example file has a block without its separator. *)
Lemma generate_and_validate_sql_bounded_witness :
  (Z.of_nat
     (generation_calls
        (trace (generate_and_validate_sql
                  (Demo.env (Some Demo.examples) Demo.db)
                  (Sqlparse.parse Sqlparse.sample_keywords)
                  "How many orders?" "Table: orders" 2 None None
                  [Some "SELECT 2"; None; Some "Sorry"]))) <= 2 + 1)%Z.
Proof.
  apply (generate_and_validate_sql_bounded
           (Demo.env (Some Demo.examples) Demo.db)
                  (Sqlparse.parse Sqlparse.sample_keywords)
           "How many orders?" "Table: orders" 2 None None
           [Some "SELECT 2"; None; Some "Sorry"]).
  lia.
Defined.

Lemma generate_and_validate_sql_exhausted_witness :
  outcome (generate_and_validate_sql
             (Demo.env (Some Demo.examples) Demo.db)
                  (Sqlparse.parse Sqlparse.sample_keywords)
             "How many orders?" "Table: orders" 2 None None
             [Some "SELECT 2"; None; Some "SELECT 3"])
  = inl (ValueError
           "Failed to generate a syntactically valid SQL query after 3 attempts. Last database error: syntax error").
Proof.
  apply (generate_and_validate_sql_exhausted
           (Demo.env (Some Demo.examples) Demo.db)
                  (Sqlparse.parse Sqlparse.sample_keywords)
           "How many orders?" "Table: orders" 2 None None
           [Some "SELECT 2"; None; Some "SELECT 3"]).
  - lia.
  - vm_compute. reflexivity.
  - vm_compute. reflexivity.
Defined.

(** The claim C6 as it is written fails: with an example file whose only
    block has no separator, the loop is left by an [IndexError] of the
    Prompt Builder, which is not its terminal error. *)
Lemma generate_and_validate_sql_other_failure :
  outcome (generate_and_validate_sql
             (Demo.env (Some "How many orders?") Demo.db)
                  (Sqlparse.parse Sqlparse.sample_keywords)
             "How many orders?" "Table: orders" 2 None None
             [Some "SELECT 1"])
  = inl IndexError
  /\ forall msg, IndexError <> ValueError msg.
Proof.
  split; [vm_compute; reflexivity|discriminate].
Qed.


Lemma generate_and_validate_sql_validated_witness :
  exists before,
    trace (generate_and_validate_sql
             (Demo.env (Some Demo.examples) Demo.db)
                  (Sqlparse.parse Sqlparse.sample_keywords)
             "How many orders?" "Table: orders" 2 None None
             [Some "SELECT 2"; Some "Here you go: SELECT 1"])
    = (before ++ [EvExplain "EXPLAIN SELECT 1" DbOk;
                  EvValidate "SELECT 1" true "OK"])%list
    /\ passes_gate "SELECT 1" = true.
Proof.
  apply (generate_and_validate_sql_validated
           (Demo.env (Some Demo.examples) Demo.db)
                  (Sqlparse.parse Sqlparse.sample_keywords)
           "How many orders?" "Table: orders" 2 None None
           [Some "SELECT 2"; Some "Here you go: SELECT 1"] "SELECT 1").
  vm_compute. reflexivity.
Defined.

(** ** Facts on the parser model *)

Section LexerFacts.
Variable keywords : string -> option ttype.

Lemma is_word_not_special :
  forall c, is_word c = true ->
    Ascii.eqb c CR = false /\ Ascii.eqb c LF = false /\ isspace c = false
    /\ Ascii.eqb c "`" = false.
Proof.
  intros c.
  destruct c as [[] [] [] [] [] [] [] []]; vm_compute; intros H;
    first [discriminate H | repeat split].
Qed.









(** No rule of the lexer gives the type [Name.Quoted] to a token. *)
Lemma lex_never_quoted :
  forall fuel s l,
    lex_fuel keywords fuel s = Some l ->
    forallb (fun t => negb (has_ttype Name_Quoted t)) l = true.
Proof.
  induction fuel as [|fuel IH]; intros s l H.
  - destruct s; [injection H as <-; reflexivity|discriminate H].
  - destruct s as [|c s]; [injection H as <-; reflexivity|].
    cbn [lex_fuel] in H.
    assert (K : forall ty text rest,
               ty <> Name_Quoted ->
               option_map (cons (Tok ty text)) (lex_fuel keywords fuel rest)
               = Some l ->
               forallb (fun t => negb (has_ttype Name_Quoted t)) l = true).
    { intros ty text rest Hty E.
      destruct (lex_fuel keywords fuel rest) as [l'|] eqn:E'; [|discriminate E].
      injection E as <-. simpl. rewrite (IH _ _ E').
      destruct ty; try reflexivity. contradiction. }
    repeat match type of H with
           | context [if ?b then _ else _] => destruct b
           | context [match ?x with _ => _ end] =>
               match x with
               | context [lex_fuel] => fail 1
               | _ => destruct x eqn:?
               end
           end; try discriminate H;
      try (apply K in H; [exact H|discriminate]).
    apply K in H; [exact H|].
    unfold lex_word in *.
    repeat match goal with
           | E : (if ?b then _ else _) = Some _ |- _ => destruct b
           | E : match keywords ?u with _ => _ end = Some _ |- _ =>
               destruct (keywords u) as [[]|]; cbn in E
           end; try discriminate; congruence.
Qed.




Lemma str_app_assoc :
  forall a b c : string, (a ++ b) ++ c = a ++ (b ++ c).
Proof.
  induction a as [|x a IH]; intros b c; simpl; [reflexivity|].
  rewrite IH. reflexivity.
Qed.

Lemma solid_last : forall c, isspace c = false -> solid (String c EmptyString).
Proof. intros c H. split; [simpl; rewrite H; reflexivity|discriminate]. Qed.

Lemma solid_cons : forall c s, solid s -> solid (String c s).
Proof.
  intros c s [H1 H2]. split; [|discriminate]. simpl. rewrite H1.
  destruct s; [contradiction|reflexivity].
Qed.

Lemma solid_app : forall a s, solid s -> solid (a ++ s).
Proof.
  induction a as [|c a IH]; intros s H; [exact H|].
  apply solid_cons, IH, H.
Qed.

Lemma lstrip_nonspace :
  forall c s, isspace c = false -> lstrip (String c s) = String c s.
Proof. intros c s H. simpl. rewrite H. reflexivity. Qed.

End LexerFacts.

(** Running the lexer and the normalizer on a text with unknown parts:
    [lex_step] passes one token with the lemmas above, [lex_all n] proves
    what the lexer answers on a text of [n] tokens, [run_normalizer]
    computes [fix_postgres_sql] up to each call of the lexer, rewrites that
    call, and ends with the white space around the result. *)










(** ** More facts on the Python strings *)

Section StringFacts.

Lemma rstrip_cons :
  forall c s,
    rstrip (String c s)
    = match rstrip s with
      | EmptyString => if isspace c then EmptyString else String c EmptyString
      | r => String c r
      end.
Proof. reflexivity. Qed.

Lemma rstrip_idempotent : forall s, rstrip (rstrip s) = rstrip s.
Proof.
  induction s as [|c s IH]; [reflexivity|].
  rewrite rstrip_cons. destruct (rstrip s) as [|d r] eqn:E.
  - destruct (isspace c) eqn:Ec; [reflexivity|].
    rewrite rstrip_cons. cbn [rstrip]. rewrite Ec. reflexivity.
  - rewrite rstrip_cons, IH. reflexivity.
Qed.

Lemma lstrip_head :
  forall s,
    match lstrip s with
    | EmptyString => True
    | String c _ => isspace c = false
    end.
Proof.
  induction s as [|c s IH]; [exact I|].
  cbn [lstrip]. destruct (isspace c) eqn:Ec; [exact IH|exact Ec].
Qed.

Lemma rstrip_keeps_head :
  forall c s, isspace c = false -> exists r, rstrip (String c s) = String c r.
Proof.
  intros c s Hc. rewrite rstrip_cons.
  destruct (rstrip s); rewrite ?Hc; eexists; reflexivity.
Qed.

Lemma strip_idempotent : forall s, strip (strip s) = strip s.
Proof.
  intros s. unfold strip. pose proof (lstrip_head s) as H.
  destruct (lstrip s) as [|c t]; [reflexivity|].
  destruct (rstrip_keeps_head c t H) as [r Hr].
  rewrite Hr, (lstrip_nonspace c r H), <- Hr. apply rstrip_idempotent.
Qed.

Lemma rstrip_app_nonspace :
  forall k r,
    all_chars (fun c => negb (isspace c)) k = true ->
    rstrip (k ++ r) = k ++ rstrip r.
Proof.
  induction k as [|c k IH]; intros r H; [reflexivity|].
  cbn [all_chars] in H. apply andb_prop in H as [Hc Hk].
  apply negb_true_iff in Hc.
  change (String c k ++ r) with (String c (k ++ r)).
  rewrite rstrip_cons, (IH r Hk).
  change (String c k ++ rstrip r) with (String c (k ++ rstrip r)).
  destruct (k ++ rstrip r); [|reflexivity].
  rewrite Hc. reflexivity.
Qed.

Lemma rfind_rstrip_none :
  forall c s, rfind c s = None -> rfind c (rstrip s) = None.
Proof.
  induction s as [|d s IH]; intros H; [reflexivity|].
  cbn [rfind] in H. destruct (rfind c s) eqn:E; [discriminate|].
  specialize (IH eq_refl). rewrite rstrip_cons.
  destruct (rstrip s) as [|e r] eqn:Er.
  - destruct (isspace d); [reflexivity|]. cbn. exact H.
  - cbn [rfind] in IH |- *. destruct (rfind c r).
    + discriminate.
    + destruct (Ascii.eqb e c); [discriminate|]. exact H.
Qed.

Lemma rfind_app_free :
  forall c k r,
    all_chars (fun d => negb (Ascii.eqb d c)) k = true ->
    rfind c (k ++ r)
    = option_map (Nat.add (String.length k)) (rfind c r).
Proof.
  induction k as [|d k IH]; intros r H.
  - cbn. destruct (rfind c r); reflexivity.
  - cbn [all_chars] in H. apply andb_prop in H as [Hd Hk].
    apply negb_true_iff in Hd.
    change (String d k ++ r) with (String d (k ++ r)).
    cbn [rfind]. rewrite (IH r Hk).
    destruct (rfind c r); cbn; [reflexivity|]. rewrite Hd. reflexivity.
Qed.

Lemma rfind_last :
  forall c x, rfind c (x ++ String c EmptyString) = Some (String.length x).
Proof.
  induction x as [|d x IH].
  - cbn. rewrite Ascii.eqb_refl. reflexivity.
  - change (String d x ++ String c EmptyString)
      with (String d (x ++ String c EmptyString)).
    cbn [rfind]. rewrite IH. reflexivity.
Qed.

Lemma take_app_length :
  forall k r m, take (String.length k + m) (k ++ r) = k ++ take m r.
Proof.
  induction k as [|c k IH]; intros r m; [reflexivity|].
  cbn. rewrite IH. reflexivity.
Qed.

Lemma take_all : forall s, take (String.length s) s = s.
Proof.
  induction s as [|c s IH]; [reflexivity|]. cbn. rewrite IH. reflexivity.
Qed.

Lemma take_S_get :
  forall s q c,
    String.get q s = Some c ->
    take (S q) s = take q s ++ String c EmptyString.
Proof.
  induction s as [|d s IH]; intros q c H; [destruct q; discriminate|].
  destruct q as [|q].
  - cbn in H. injection H as ->. reflexivity.
  - cbn in H.
    change (take (S (S q)) (String d s)) with (String d (take (S q) s)).
    rewrite (IH q c H). reflexivity.
Qed.

Lemma string_length_app :
  forall a b, String.length (a ++ b) = String.length a + String.length b.
Proof.
  induction a as [|c a IH]; intros b; [reflexivity|].
  cbn. rewrite IH. reflexivity.
Qed.

Lemma upper_app : forall a b, upper (a ++ b) = upper a ++ upper b.
Proof.
  induction a as [|c a IH]; intros b; [reflexivity|].
  cbn. rewrite IH. reflexivity.
Qed.

Lemma prefix_app : forall a b, String.prefix a (a ++ b) = true.
Proof.
  induction a as [|c a IH]; intros b.
  - destruct b; reflexivity.
  - cbn. destruct (ascii_dec c c) as [_|n]; [apply IH|contradiction].
Qed.

Lemma is_word_not_semicolon :
  forall c, is_word c = true -> Ascii.eqb c ";" = false.
Proof.
  intros c H. destruct (Ascii.eqb_spec c ";") as [->|]; [|reflexivity].
  vm_compute in H. discriminate.
Qed.

Lemma all_chars_weaken :
  forall (p q : ascii -> bool) s,
    (forall c, p c = true -> q c = true) ->
    all_chars p s = true -> all_chars q s = true.
Proof.
  intros p q s Hpq. induction s as [|c s IH]; intros H; [reflexivity|].
  cbn [all_chars] in *. apply andb_prop in H as [Hc Hs].
  rewrite (Hpq c Hc), (IH Hs). reflexivity.
Qed.

End StringFacts.

(** ** Facts on [contains] *)

Section ContainsFacts.

Lemma append_nil_r : forall s : string, s ++ EmptyString = s.
Proof.
  induction s as [|c s IH]; [reflexivity|]. cbn. rewrite IH. reflexivity.
Qed.

Lemma contains_self : forall x, contains x x.
Proof.
  intros x. exists EmptyString, EmptyString.
  rewrite append_nil_r. reflexivity.
Qed.

Lemma contains_head : forall x b, contains (x ++ b) x.
Proof. intros x b. exists EmptyString, b. reflexivity. Qed.

Lemma contains_app_left : forall a b x, contains b x -> contains (a ++ b) x.
Proof.
  intros a b x (before & after & ->). exists (a ++ before), after.
  rewrite str_app_assoc. reflexivity.
Qed.

Lemma contains_app_right : forall a b x, contains a x -> contains (a ++ b) x.
Proof.
  intros a b x (before & after & ->). exists before, (after ++ b).
  rewrite !str_app_assoc. reflexivity.
Qed.

Lemma contains_cons : forall c s x, contains s x -> contains (String c s) x.
Proof.
  intros c s x H.
  apply (contains_app_left (String c EmptyString) s x H).
Qed.

Lemma contains_trans :
  forall s t x, contains s t -> contains t x -> contains s x.
Proof.
  intros s t x (b1 & a1 & ->) H.
  apply contains_app_left, contains_app_right, H.
Qed.

End ContainsFacts.

(** ** The normalizer away from its targets *)

Section UntargetedFacts.
Variable parse : string -> option (list token).

Lemma rewrite_function_untargeted :
  forall ts name params,
    func_name ts = Some name ->
    get_parameters ts = Some params ->
    targeted name (length params) = false ->
    rewrite_function parse ts = Some ts.
Proof.
  intros ts name params Hname Hparams Ht. unfold rewrite_function.
  rewrite Hname, Hparams. destruct name as [|c name]; [reflexivity|].
  unfold targeted in Ht.
  repeat (apply orb_false_iff in Ht; destruct Ht as [Ht ?]).
  cbv zeta.
  repeat match goal with
         | H : _ && _ = false |- _ => rewrite H; clear H
         end.
  reflexivity.
Qed.

Lemma process_token_untargeted :
  forall t, untargeted t = true -> process_token parse t = Some t.
Proof.
  fix IH 1. intros [ty v|c v n ts] H.
  - cbn [untargeted backticked] in H. apply negb_true_iff in H.
    cbn [process_token fix_quoted_name]. rewrite H. reflexivity.
  - cbn [untargeted] in H. apply andb_prop in H as [Hall Hcall].
    assert (Hts : (fix process_tokens (l : list token)
                     : option (list token) :=
                     match l with
                     | [] => Some []
                     | x :: r =>
                         match process_token parse x, process_tokens r with
                         | Some x', Some r' => Some (x' :: r')
                         | _, _ => None
                         end
                     end) ts = Some ts).
    { clear Hcall. induction ts as [|x r IHr]; [reflexivity|].
      cbn [forallb] in Hall. apply andb_prop in Hall as [Hx Hr].
      rewrite (IH x Hx), (IHr Hr). reflexivity. }
    cbn [process_token]. rewrite Hts.
    destruct (class_eqb c Function); [|reflexivity].
    destruct (func_name ts) as [name|] eqn:Hname.
    + destruct name as [|d name].
      * unfold rewrite_function. rewrite Hname. reflexivity.
      * destruct (get_parameters ts) as [params|] eqn:Hparams;
          [|discriminate].
        apply negb_true_iff in Hcall.
        rewrite (rewrite_function_untargeted ts _ params Hname Hparams Hcall).
        reflexivity.
    + unfold rewrite_function. rewrite Hname. reflexivity.
Qed.

Lemma process_tokens_untargeted :
  forall ts, forallb untargeted ts = true -> process_tokens parse ts = Some ts.
Proof.
  induction ts as [|x r IH]; intros H; [reflexivity|].
  cbn [forallb] in H. apply andb_prop in H as [Hx Hr].
  cbn [process_tokens].
  rewrite (process_token_untargeted x Hx), (IH Hr). reflexivity.
Qed.

End UntargetedFacts.

(** ** The normalizer below a group *)

Section ProcessFacts.
Variable parse : string -> option (list token).























End ProcessFacts.

(** ** Facts on the normalizer *)

Section NormalizerFacts.

(** The keyword table of the library, of which four entries are used: the
    two type names, the keyword that the snippets of the normalizer write
    outside a call, and the keyword that opens a statement. *)
Variable keywords : string -> option ttype.
Hypothesis keywords_date : keywords "DATE" = Some Name_Builtin.
Hypothesis keywords_numeric : keywords "NUMERIC" = Some Name_Builtin.
Hypothesis keywords_current_timestamp :
  keywords "CURRENT_TIMESTAMP" = Some Keyword.
Hypothesis keywords_select : keywords "SELECT" = Some Keyword_DML.















(** A call whose name is none of the five that the normalizer looks for
    keeps its children, whatever parser is used. *)
Lemma rewrite_function_unmatched :
  forall (any_parse : string -> option (list token)) ts name params,
    func_name ts = Some name ->
    get_parameters ts = Some params ->
    existsb (String.eqb name)
      ["NOW"; "IFNULL"; "DATE"; "ROUND"; "FORMAT_DATE"] = false ->
    rewrite_function any_parse ts = Some ts.
Proof.
  intros any_parse ts name params Hname Hparams Hnot.
  unfold rewrite_function. rewrite Hname, Hparams.
  cbn [existsb] in Hnot.
  repeat (apply orb_false_iff in Hnot; destruct Hnot as [? Hnot]).
  destruct name as [|c name]; [reflexivity|].
  unfold fix_when.
  repeat match goal with
         | H : String.eqb _ _ = false |- _ => rewrite H; clear H
         end.
  reflexivity.
Qed.



End NormalizerFacts.

(** The normalizer run with the sample keyword table, in which [a], [b],
    [x], [d] and [col] are not listed. *)

(** A fix made in an argument of a rewritten call is lost; it is kept in
    a call that is not rewritten and in a parenthesis. *)
Lemma fix_nested_examples :
  fix_postgres_sql (parse sample_keywords) "IFNULL(NOW(), b)"
  = Some "COALESCE(NOW(), b)"
  /\ fix_postgres_sql (parse sample_keywords) "DATE(DATE(x))"
     = Some "CAST(DATE(x) AS DATE)"
  /\ fix_postgres_sql (parse sample_keywords) "UNKNOWN(NOW())"
     = Some "UNKNOWN(CURRENT_TIMESTAMP)"
  /\ fix_postgres_sql (parse sample_keywords) "SELECT (NOW())"
     = Some "SELECT (CURRENT_TIMESTAMP)".
Proof.
  refine (conj _ (conj _ (conj _ _))); vm_compute; reflexivity.
Qed.



(** C4 on the program: five of the six sample rewrites come out as the
    specification has them; the name between backticks does not, it is
    returned as it was, because no token has the type that Fix 1 asks
    for; and a fix made in an argument of a rewritten call is lost, the
    call being rebuilt from the text its argument had before. *)
Theorem fix_postgres_sql_samples :
  fix_postgres_sql (parse sample_keywords) "`col`" = Some "`col`"
  /\ Some "`col`" <> Some (double_quote ++ "col" ++ double_quote)
  /\ fix_postgres_sql (parse sample_keywords) "NOW()"
     = Some "CURRENT_TIMESTAMP"
  /\ fix_postgres_sql (parse sample_keywords) "IFNULL(a, b)"
     = Some "COALESCE(a, b)"
  /\ fix_postgres_sql (parse sample_keywords) "DATE(x)"
     = Some "CAST(x AS DATE)"
  /\ fix_postgres_sql (parse sample_keywords) "ROUND(x, 2)"
     = Some "ROUND(CAST(x AS NUMERIC), 2)"
  /\ fix_postgres_sql (parse sample_keywords) "FORMAT_DATE('%B', d)"
     = Some "TO_CHAR(d, 'Month')"
  /\ fix_postgres_sql (parse sample_keywords) "UNKNOWN(NOW())"
     = Some "UNKNOWN(CURRENT_TIMESTAMP)"
  /\ fix_postgres_sql (parse sample_keywords) "IFNULL(NOW(), b)"
     = Some "COALESCE(NOW(), b)".
Proof.
  refine (conj _ (conj _ (conj _ (conj _ (conj _ (conj _ (conj _
            (conj _ _))))))));
    try (vm_compute; reflexivity).
  vm_compute. discriminate.
Qed.



(** * More of the program *)


(** ** More facts on the extractor *)

Section ExtractorShape.

Lemma upper_char_of_upper :
  forall k, is_upper k = true -> upper_char k = k.
Proof.
  intros k H. unfold upper_char, is_lower, is_upper in *.
  destruct (nat_of_ascii k) as [|n] eqn:E; [discriminate|].
  apply andb_prop in H as [H1 H2].
  apply Nat.leb_le in H1, H2.
  destruct (97 <=? S n) eqn:E1; [|reflexivity].
  apply Nat.leb_le in E1. lia.
Qed.

Lemma upper_char_is_upper :
  forall c, is_upper (upper_char c) = true -> is_word c = true.
Proof.
  intros c H. unfold is_word, upper_char in *.
  destruct (is_lower c); [reflexivity|]. rewrite H. reflexivity.
Qed.

(** What a successful [match_literal] of a keyword in capitals says. *)
Lemma match_literal_split :
  forall kw s rest,
    all_chars is_upper kw = true ->
    match_literal kw s = Some rest ->
    exists K,
      s = K ++ rest
      /\ upper K = kw
      /\ all_chars is_word K = true
      /\ (forall x, match_literal kw (K ++ x) = Some x).
Proof.
  induction kw as [|k kw IH]; intros s rest Hkw H.
  - cbn in H. injection H as ->. exists EmptyString. repeat split.
  - cbn [all_chars] in Hkw. apply andb_prop in Hkw as [Hk Hkw].
    cbn [match_literal] in H. destruct s as [|c s]; [discriminate|].
    destruct (Ascii.eqb (upper_char c) (upper_char k)) eqn:Ec;
      [|discriminate].
    destruct (IH s rest Hkw H) as (K & -> & Hup & Hw & Hx).
    exists (String c K).
    apply Ascii.eqb_eq in Ec. rewrite (upper_char_of_upper k Hk) in Ec.
    refine (conj eq_refl (conj _ (conj _ _))).
    + cbn. rewrite Ec, Hup. reflexivity.
    + cbn [all_chars]. rewrite Hw, andb_true_r.
      apply upper_char_is_upper. rewrite Ec. exact Hk.
    + intros x. cbn. rewrite Ec, (upper_char_of_upper k Hk), Ascii.eqb_refl.
      apply Hx.
Qed.

Lemma head_is_word_rstrip :
  forall s, head_is_word s = false -> head_is_word (rstrip s) = false.
Proof.
  intros [|c s] H; [reflexivity|]. rewrite rstrip_cons.
  destruct (rstrip s); [destruct (isspace c)|]; cbn; auto.
Qed.

Lemma head_is_word_take :
  forall s q, head_is_word s = false -> head_is_word (take q s) = false.
Proof. intros [|c s] [|q] H; cbn; auto. Qed.

(** The text that [clean_sql_output] returns: nothing, or a keyword [K],
    written in any mix of cases, and a rest [r] that does not go on the
    word, does not end in white space, and is free of semicolons or ends
    with one. *)
Lemma clean_sql_output_shape :
  forall raw,
    clean_sql_output raw = EmptyString
    \/ exists kw K r,
         (kw = "SELECT" \/ kw = "WITH")
         /\ clean_sql_output raw = K ++ r
         /\ (forall x, match_literal kw (K ++ x) = Some x)
         /\ upper K = kw
         /\ all_chars is_word K = true
         /\ head_is_word r = false
         /\ rstrip r = r
         /\ (rfind ";" r = None \/ exists x, r = x ++ ";").
Proof.
  intros [raw|]; [|left; reflexivity].
  rewrite clean_sql_output_unfold.
  pose proof (re_search_spec raw) as Hs.
  destruct (re_search raw) as [i|]; [|left; reflexivity].
  destruct Hs as [Htok _]. right.
  rewrite <- match_here_token_at in Htok.
  set (cand := drop i raw) in *.
  unfold match_here in Htok. apply andb_prop in Htok as [_ Hkw].
  assert (Hm : exists kw rest,
             (kw = "SELECT" \/ kw = "WITH")
             /\ match_literal kw cand = Some rest
             /\ head_is_word rest = false).
  { unfold match_keyword, word_boundary in Hkw.
    destruct (match_literal "SELECT" cand) as [rest|] eqn:E1.
    - destruct (head_is_word rest) eqn:Eh.
      + cbn [xorb orb] in Hkw.
        destruct (match_literal "WITH" cand) as [rest'|] eqn:E2;
          [|discriminate].
        exists "WITH", rest'. repeat split; auto.
        destruct (head_is_word rest'); [discriminate|reflexivity].
      + exists "SELECT", rest. repeat split; auto.
    - cbn [orb] in Hkw.
      destruct (match_literal "WITH" cand) as [rest'|] eqn:E2;
        [|discriminate].
      exists "WITH", rest'. repeat split; auto.
      destruct (head_is_word rest'); [discriminate|reflexivity]. }
  destruct Hm as (kw & rest & Hkind & Hlit & Hrest).
  assert (Hcaps : all_chars is_upper kw = true)
    by (destruct Hkind as [-> | ->]; reflexivity).
  destruct (match_literal_split kw cand rest Hcaps Hlit)
    as (K & Hcand & Hup & Hword & Hx).
  assert (Hns : all_chars (fun c => negb (isspace c)) K = true).
  { apply (all_chars_weaken is_word); [|exact Hword].
    intros c Hc. apply negb_true_iff. apply (is_word_not_special c Hc). }
  assert (Hnsc : all_chars (fun d => negb (Ascii.eqb d ";")) K = true).
  { apply (all_chars_weaken is_word); [|exact Hword].
    intros c Hc. apply negb_true_iff. apply (is_word_not_semicolon c Hc). }
  assert (HK : exists c K', K = String c K' /\ isspace c = false).
  { destruct K as [|c K'].
    - cbn in Hup. destruct Hkind as [-> | ->]; discriminate.
    - exists c, K'. split; [reflexivity|].
      cbn [all_chars] in Hns. apply andb_prop in Hns as [Hc _].
      apply negb_true_iff in Hc. exact Hc. }
  destruct HK as (c & K' & HKeq & Hc).
  assert (Hstrip : forall y, strip (K ++ y) = K ++ rstrip y).
  { intros y. unfold strip. rewrite HKeq.
    change (String c K' ++ y) with (String c (K' ++ y)).
    rewrite (lstrip_nonspace c _ Hc).
    change (String c (K' ++ y)) with (String c K' ++ y).
    rewrite <- HKeq. apply rstrip_app_nonspace. exact Hns. }
  rewrite Hcand, (rfind_app_free ";" K rest Hnsc).
  pose proof (rfind_spec ";" rest) as Hr.
  destruct (rfind ";" rest) as [q|] eqn:Eq; cbn [option_map].
  - destruct Hr as [Hget _].
    replace (String.length K + q + 1) with (String.length K + S q) by lia.
    rewrite take_app_length, (take_S_get rest q ";" Hget), Hstrip.
    assert (Hsolid : rstrip (take q rest ++ ";") = take q rest ++ ";").
    { apply (solid_app (take q rest) ";"). apply solid_last. reflexivity. }
    rewrite Hsolid.
    exists kw, K, (take q rest ++ ";").
    refine (conj Hkind (conj eq_refl (conj Hx (conj Hup (conj Hword
              (conj _ (conj Hsolid _))))))).
    + rewrite <- (take_S_get rest q ";" Hget).
      apply head_is_word_take. exact Hrest.
    + right. exists (take q rest). reflexivity.
  - rewrite Hstrip.
    exists kw, K, (rstrip rest).
    refine (conj Hkind (conj eq_refl (conj Hx (conj Hup (conj Hword
              (conj _ (conj _ _))))))).
    + apply head_is_word_rstrip. exact Hrest.
    + apply rstrip_idempotent.
    + left. apply rfind_rstrip_none. exact Eq.
Qed.

(** The search finds a text of that form at its start. *)
Lemma re_search_at_start :
  forall kw K r,
    (kw = "SELECT" \/ kw = "WITH") ->
    (forall x, match_literal kw (K ++ x) = Some x) ->
    all_chars is_word K = true ->
    upper K = kw ->
    head_is_word r = false ->
    re_search (K ++ r) = Some 0.
Proof.
  intros kw K r Hkind Hx Hword Hup Hr.
  assert (Hhead : head_is_word (K ++ r) = true).
  { destruct K as [|c K'].
    - cbn in Hup. destruct Hkind as [-> | ->]; discriminate.
    - cbn [all_chars] in Hword. apply andb_prop in Hword as [Hc _].
      exact Hc. }
  assert (Hmatch : match_keyword kw (K ++ r) = true).
  { unfold match_keyword, word_boundary. rewrite Hx, Hr. reflexivity. }
  unfold re_search.
  assert (Hhere : match_here false (K ++ r) = true).
  { unfold match_here, word_boundary. rewrite Hhead. cbn [xorb andb].
    destruct Hkind as [-> | ->]; rewrite Hmatch;
      [reflexivity|apply orb_true_r]. }
  destruct (K ++ r); cbn [search_from]; rewrite Hhere; reflexivity.
Qed.

End ExtractorShape.

(** X1: the extractor applied to its own output gives that output: what
    it returns starts with the token it looks for and ends where it would
    cut. *)
Theorem clean_sql_output_idempotent :
  forall raw,
    clean_sql_output (Some (clean_sql_output raw)) = clean_sql_output raw.
Proof.
  intros raw.
  destruct (clean_sql_output_shape raw)
    as [-> | (kw & K & r & Hkind & -> & Hx & Hup & Hword & Hr & Hrs & Hsemi)];
    [reflexivity|].
  rewrite clean_sql_output_unfold,
    (re_search_at_start kw K r Hkind Hx Hword Hup Hr).
  change (drop 0 (K ++ r)) with (K ++ r).
  assert (Hnsc : all_chars (fun d => negb (Ascii.eqb d ";")) K = true).
  { apply (all_chars_weaken is_word); [|exact Hword].
    intros c Hc. apply negb_true_iff. apply (is_word_not_semicolon c Hc). }
  assert (Hns : all_chars (fun c => negb (isspace c)) K = true).
  { apply (all_chars_weaken is_word); [|exact Hword].
    intros c Hc. apply negb_true_iff. apply (is_word_not_special c Hc). }
  assert (Hstrip : strip (K ++ r) = K ++ r).
  { unfold strip. destruct K as [|c K'].
    - cbn in Hup. destruct Hkind as [-> | ->]; discriminate.
    - change (String c K' ++ r) with (String c (K' ++ r)).
      rewrite lstrip_nonspace.
      + change (String c (K' ++ r)) with (String c K' ++ r).
        rewrite (rstrip_app_nonspace _ _ Hns), Hrs. reflexivity.
      + cbn [all_chars] in Hns. apply andb_prop in Hns as [Hc _].
        apply negb_true_iff in Hc. exact Hc. }
  destruct Hsemi as [Hnone | [x ->]].
  - rewrite (rfind_app_free ";" K r Hnsc), Hnone. exact Hstrip.
  - rewrite <- str_app_assoc, rfind_last.
    replace (String.length (K ++ x) + 1)
      with (String.length ((K ++ x) ++ ";")).
    + rewrite take_all. rewrite str_app_assoc. exact Hstrip.
    + rewrite (string_length_app (K ++ x) ";"). reflexivity.
Qed.

(** X2: for an answer of the ASCII range, on which the character
    functions of the model are those of Python, what the extractor returns
    passes the read-only gate of the Validator, unless it is empty; the
    empty text does not pass. *)
Theorem clean_sql_output_passes_gate :
  forall raw,
    (forall text, raw = Some text -> is_ascii text = true) ->
    passes_gate (clean_sql_output raw)
    = negb (is_empty (clean_sql_output raw)).
Proof.
  intros raw _.
  destruct (clean_sql_output_shape raw)
    as [-> | (kw & K & r & Hkind & -> & Hx & Hup & Hword & Hr & Hrs & Hsemi)];
    [reflexivity|].
  assert (Hne : is_empty (K ++ r) = false).
  { destruct K; [|reflexivity].
    cbn in Hup. destruct Hkind as [-> | ->]; discriminate. }
  rewrite Hne. cbn [negb].
  assert (Hns : all_chars (fun c => negb (isspace c)) K = true).
  { apply (all_chars_weaken is_word); [|exact Hword].
    intros c Hc. apply negb_true_iff. apply (is_word_not_special c Hc). }
  assert (Hstrip : strip (K ++ r) = K ++ r).
  { unfold strip. destruct K as [|c K'].
    { cbn in Hup. destruct Hkind as [-> | ->]; discriminate. }
    change (String c K' ++ r) with (String c (K' ++ r)).
    rewrite lstrip_nonspace.
    + change (String c (K' ++ r)) with (String c K' ++ r).
      rewrite (rstrip_app_nonspace _ _ Hns), Hrs. reflexivity.
    + cbn [all_chars] in Hns. apply andb_prop in Hns as [Hc _].
      apply negb_true_iff in Hc. exact Hc. }
  unfold passes_gate, gate, startswith. cbv zeta.
  rewrite Hstrip, upper_app, Hup.
  destruct Hkind as [-> | ->]; rewrite prefix_app;
    [reflexivity|apply orb_true_r].
Qed.

(** The sample answer: what is kept of it passes the gate. *)
Lemma clean_sql_output_passes_gate_witness :
  passes_gate (clean_sql_output (Some sample_output))
  = negb (is_empty (clean_sql_output (Some sample_output))).
Proof.
  apply (clean_sql_output_passes_gate (Some sample_output)).
  intros text H. injection H as <-. reflexivity.
Defined.


(** ** The runs of the loop, turn by turn *)

Section RoundsFacts.
Context {W : Type} (env : Env W).
Variable parse : string -> option (list token).

Lemma asks_contains :
  forall schema prompt question,
    asks schema prompt question ->
    contains prompt schema /\ contains prompt question.
Proof.
  intros schema prompt question [examples ->]. split.
  - apply contains_app_left, contains_head.
  - do 5 apply contains_app_left. apply contains_head.
Qed.

Lemma question_of_contains :
  forall instruction sql message,
    contains (question_of instruction (Some (sql, message))) sql
    /\ contains (question_of instruction (Some (sql, message))) message.
Proof.
  intros instruction sql message. unfold question_of, fix_instructions.
  split.
  - apply contains_app_left. do 2 apply contains_cons.
    apply contains_app_left, contains_head.
  - apply contains_app_left. do 2 apply contains_cons.
    do 3 apply contains_app_left. apply contains_head.
Qed.

Lemma question_of_instruction :
  forall instruction previous,
    contains (question_of instruction previous) instruction.
Proof.
  intros instruction [[sql message]|]; [apply contains_head|].
  apply contains_self.
Qed.

(** A prompt that the Prompt Builder returns is the template, filled. *)
Lemma build_prompt_from_files_asks :
  forall schema file question k w prompt t w',
    build_prompt_from_files env schema file question k w
    = (inr prompt, t, w') ->
    asks schema prompt question.
Proof.
  intros schema file question k w prompt t w'. unfold build_prompt_from_files.
  destruct (read_text env file w) as [[raw| |reason] w1];
    [|discriminate|discriminate].
  destruct (if k <? length (parse_examples raw)
            then random_sample env (parse_examples raw) k w1
            else (parse_examples raw, w1)) as [sel w2].
  destruct (format_examples 0 sel EmptyString) as [e|formatted];
    [discriminate|].
  intros H. injection H as <- _ _. exists formatted. reflexivity.
Qed.

(** The Validator, as a function of the answer of the database. *)
Lemma is_query_valid_answer :
  forall sql w,
    is_query_valid env sql w
    = if passes_gate sql
      then
        let a := engine_execute env ("EXPLAIN " ++ sql) w in
        (inr (accepted (fst a), answer_message (fst a)),
         [EvExplain ("EXPLAIN " ++ sql) (fst a)], snd a)
      else (inr (false, rejection_message), [], w).
Proof.
  intros sql w. unfold is_query_valid, is_query_valid_with.
  change (gate strip upper sql) with (passes_gate sql).
  destruct (passes_gate sql); cbn [negb]; [|reflexivity].
  unfold bind, explain. cbv zeta.
  generalize ("EXPLAIN " ++ sql). intros statement.
  destruct (engine_execute env statement w) as [r w'].
  destruct r; reflexivity.
Qed.

Lemma attempts_rounds :
  forall schema instruction n remaining attempt generated_sql error_message w,
    rounds parse schema instruction
      (if attempt =? 0 then None else Some (generated_sql, error_message))
      (trace (attempts env parse schema instruction n remaining attempt
                generated_sql error_message w)).
Proof.
  intros schema instruction n remaining.
  induction remaining as [|k IH]; intros attempt g e w.
  - apply rounds_stop.
  - rewrite attempts_step.
    assert (Hq : (if attempt =? 0 then instruction
                  else instruction ++ String "010" (String "010"
                         (fix_instructions g e)))
                 = question_of instruction
                     (if attempt =? 0 then None else Some (g, e)))
      by (destruct (attempt =? 0); reflexivity).
    rewrite Hq. clear Hq.
    set (previous := if attempt =? 0 then None else Some (g, e)).
    pose proof (build_prompt_from_files_run env schema examples_path
                  (question_of instruction previous) 3 w) as [Ht _].
    pose proof (build_prompt_from_files_asks schema examples_path
                  (question_of instruction previous) 3 w) as Hasks.
    destruct (build_prompt_from_files env schema examples_path
                (question_of instruction previous) 3 w)
      as [[[ex|prompt] t0] w0]; cbn [trace fst snd] in Ht; subst t0.
    { apply rounds_stop. }
    specialize (Hasks prompt [] w0 eq_refl).
    destruct (ollama_generate env prompt w0) as [response w1].
    destruct (fix_postgres_sql parse
                (clean_sql_output (option_map strip response)))
      as [sql|] eqn:Hcand.
    2:{ apply rounds_parser_error; assumption. }
    rewrite is_query_valid_answer.
    destruct (passes_gate sql) eqn:Hgate.
    + cbv zeta.
      destruct (engine_execute env ("EXPLAIN " ++ sql) w1) as [a w2].
      cbn [fst snd].
      destruct (accepted a) eqn:Ha.
      * destruct a; try discriminate Ha.
        apply rounds_valid; assumption.
      * specialize (IH (S attempt) sql (answer_message a) w2).
        cbn [Nat.eqb] in IH.
        destruct (attempts env parse schema instruction n k (S attempt) sql
                    (answer_message a) w2) as [[r3 t3] w3].
        cbn [trace fst snd app] in IH |- *.
        apply rounds_database; assumption.
    + specialize (IH (S attempt) sql rejection_message w1).
      cbn [Nat.eqb] in IH.
      destruct (attempts env parse schema instruction n k (S attempt) sql
                  rejection_message w1) as [[r3 t3] w3].
      cbn [trace fst snd app] in IH |- *.
      apply rounds_gate; assumption.
Qed.

Lemma generate_and_validate_sql_rounds :
  forall user_question enhanced_schema max_syntax_retries previous_sql
         user_feedback (w : W),
    rounds parse enhanced_schema
      (base_prompt_instruction user_question previous_sql user_feedback)
      None
      (trace (generate_and_validate_sql env parse user_question
                enhanced_schema max_syntax_retries previous_sql
                user_feedback w)).
Proof.
  intros. unfold generate_and_validate_sql.
  apply (attempts_rounds enhanced_schema _ max_syntax_retries _ 0
           EmptyString EmptyString w).
Qed.

(** The first event of a run is a call of the generation service. *)
Lemma rounds_head :
  forall schema instruction previous e t,
    rounds parse schema instruction previous (e :: t) ->
    exists prompt response,
      e = EvGenerate prompt response
      /\ asks schema prompt (question_of instruction previous).
Proof.
  intros schema instruction previous e t H.
  inversion H; subst; eauto.
Qed.



(** After an answer of the Validator the run ends or goes on with a call
    of the generation service for the question of the next turn. *)
Lemma rounds_after_validate :
  forall schema instruction previous t,
    rounds parse schema instruction previous t ->
    forall before sql v m next after,
      t = (before ++ EvValidate sql v m :: next :: after)%list ->
      v = false
      /\ exists prompt response,
           next = EvGenerate prompt response
           /\ asks schema prompt (question_of instruction (Some (sql, m))).
Proof.
  intros schema instruction previous t H.
  induction H as [previous
                 |previous prompt response Hasks Hcand
                 |previous prompt response sql rest Hasks Hcand Hgate Hrest IH
                 |previous prompt response sql a rest Hasks Hcand Hgate Ha
                    Hrest IH
                 |previous prompt response sql Hasks Hcand Hgate];
    intros before s v m next after Heq.
  - destruct before; discriminate Heq.
  - destruct before as [|? [|? ?]]; discriminate Heq.
  - destruct before as [|e0 [|e1 before]]; try discriminate Heq.
    + injection Heq as _ <- <- <- Hrest'. subst rest.
      split; [reflexivity|]. apply (rounds_head _ _ _ _ _ Hrest).
    + injection Heq as _ _ Hrest'. apply (IH _ _ _ _ _ _ Hrest').
  - destruct before as [|e0 [|e1 [|e2 before]]]; try discriminate Heq.
    + injection Heq as _ _ <- <- <- Hrest'. subst rest.
      split; [reflexivity|]. apply (rounds_head _ _ _ _ _ Hrest).
    + injection Heq as _ _ _ Hrest'. apply (IH _ _ _ _ _ _ Hrest').
  - destruct before as [|e0 [|e1 [|e2 [|e3 before]]]]; discriminate Heq.
Qed.




(** X5: when a run goes on after an answer of the Validator, that answer
    was a rejection and the next event is a call of the generation service
    whose prompt holds the schema, the instruction of the first turn, the
    rejected candidate and the message of the rejection. *)
Theorem generate_and_validate_sql_retry_prompt :
  forall user_question enhanced_schema max_syntax_retries previous_sql
         user_feedback (w : W) before sql v m next after,
    trace (generate_and_validate_sql env parse user_question
             enhanced_schema max_syntax_retries previous_sql
             user_feedback w)
    = (before ++ EvValidate sql v m :: next :: after)%list ->
    v = false
    /\ exists prompt response,
         next = EvGenerate prompt response
         /\ contains prompt enhanced_schema
         /\ contains prompt
              (base_prompt_instruction user_question previous_sql
                 user_feedback)
         /\ contains prompt sql
         /\ contains prompt m.
Proof.
  intros q schema n prev fb w before sql v m next after Heq.
  destruct (rounds_after_validate _ _ _ _
              (generate_and_validate_sql_rounds q schema n prev fb w)
              _ _ _ _ _ _ Heq) as (Hv & prompt & response & Hnext & Hasks).
  split; [exact Hv|]. exists prompt, response. split; [exact Hnext|].
  destruct (asks_contains _ _ _ Hasks) as [Hschema Hquestion].
  destruct (question_of_contains (base_prompt_instruction q prev fb) sql m)
    as [Hsql Hm].
  repeat split.
  - exact Hschema.
  - apply (contains_trans _ _ _ Hquestion), question_of_instruction.
  - apply (contains_trans _ _ _ Hquestion Hsql).
  - apply (contains_trans _ _ _ Hquestion Hm).
Qed.


(** X7: the first prompt of a run.  When a previous query and a feedback
    are both given and not empty, it holds the question, the previous
    query and the feedback as they are; when one of them is missing or
    empty, the other is not used and the prompt is that of the question
    alone. *)
Theorem generate_and_validate_sql_first_prompt :
  forall user_question enhanced_schema max_syntax_retries previous_sql
         user_feedback (w : W) e after,
    trace (generate_and_validate_sql env parse user_question
             enhanced_schema max_syntax_retries previous_sql
             user_feedback w) = e :: after ->
    exists prompt response,
      e = EvGenerate prompt response
      /\ contains prompt enhanced_schema
      /\ contains prompt user_question
      /\ (forall previous feedback,
             previous_sql = Some previous -> user_feedback = Some feedback ->
             previous <> EmptyString -> feedback <> EmptyString ->
             contains prompt previous /\ contains prompt feedback)
      /\ (truthy previous_sql && truthy user_feedback = false ->
          asks enhanced_schema prompt user_question).
Proof.
  intros q schema n prev fb w e after Heq.
  pose proof (generate_and_validate_sql_rounds q schema n prev fb w) as H.
  rewrite Heq in H.
  destruct (rounds_head _ _ _ _ _ H) as (prompt & response & -> & Hasks).
  exists prompt, response. split; [reflexivity|].
  destruct (asks_contains _ _ _ Hasks) as [Hschema Hquestion].
  cbn [question_of] in Hquestion, Hasks.
  split; [exact Hschema|].
  assert (Hrefine : forall p f,
             contains (refinement_instruction q p f) q
             /\ contains (refinement_instruction q p f) p
             /\ contains (refinement_instruction q p f) f).
  { intros p f. unfold refinement_instruction. cbv zeta.
    refine (conj _ (conj _ _)).
    - apply contains_app_left, contains_head.
    - do 3 apply contains_app_left. apply contains_head.
    - do 5 apply contains_app_left. apply contains_app_right.
      apply contains_app_left, contains_cons, contains_self. }
  refine (conj _ (conj _ _)).
  - destruct prev as [[|c p]|]; try exact Hquestion;
      destruct fb as [[|d f]|]; try exact Hquestion.
    apply (contains_trans _ _ _ Hquestion), Hrefine.
  - intros p f -> -> Hp Hf.
    destruct p as [|c p]; [contradiction|].
    destruct f as [|d f]; [contradiction|].
    split; apply (contains_trans _ _ _ Hquestion), Hrefine.
  - intros Hplain.
    destruct prev as [[|c p]|]; try exact Hasks;
      destruct fb as [[|d f]|]; try exact Hasks.
    discriminate Hplain.
Qed.

(** X8: with a negative [max_syntax_retries] the loop has no turn: it
    reads no file, calls neither the generation service nor the database,
    and raises its [ValueError] at once, with the number
    [max_syntax_retries + 1] and an empty last message. *)
Theorem generate_and_validate_sql_no_turn :
  forall user_question enhanced_schema max_syntax_retries previous_sql
         user_feedback (w : W),
    (max_syntax_retries < 0)%Z ->
    generate_and_validate_sql env parse user_question enhanced_schema
      max_syntax_retries previous_sql user_feedback w
    = (inl (ValueError (exhausted_message max_syntax_retries EmptyString)),
       [], w).
Proof.
  intros q schema n prev fb w Hn. unfold generate_and_validate_sql.
  replace (Z.to_nat (n + 1)) with 0 by lia. reflexivity.
Qed.

End RoundsFacts.



Lemma generate_and_validate_sql_retry_prompt_witness :
  false = false
  /\ exists prompt response,
       nth 3 (trace (generate_and_validate_sql
                       (Demo.env (Some Demo.examples) Demo.db)
                       (Sqlparse.parse Sqlparse.sample_keywords)
                       "How many orders?" "Table: orders" 2 None None
                       [Some "SELECT 2"; Some "Here you go: SELECT 1"]))
         (EvValidate EmptyString false EmptyString)
       = EvGenerate prompt response
       /\ contains prompt "Table: orders"
       /\ contains prompt (base_prompt_instruction "How many orders?" None None)
       /\ contains prompt "SELECT 2"
       /\ contains prompt "syntax error".
Proof.
  apply (generate_and_validate_sql_retry_prompt
           (Demo.env (Some Demo.examples) Demo.db)
           (Sqlparse.parse Sqlparse.sample_keywords)
           "How many orders?" "Table: orders" 2 None None
           [Some "SELECT 2"; Some "Here you go: SELECT 1"]
           (firstn 2
              (trace (generate_and_validate_sql
                        (Demo.env (Some Demo.examples) Demo.db)
                        (Sqlparse.parse Sqlparse.sample_keywords)
                        "How many orders?" "Table: orders" 2 None None
                        [Some "SELECT 2"; Some "Here you go: SELECT 1"])))
           "SELECT 2" false "syntax error" _
           (skipn 4
              (trace (generate_and_validate_sql
                        (Demo.env (Some Demo.examples) Demo.db)
                        (Sqlparse.parse Sqlparse.sample_keywords)
                        "How many orders?" "Table: orders" 2 None None
                        [Some "SELECT 2"; Some "Here you go: SELECT 1"])))).
  vm_compute. reflexivity.
Defined.


Lemma generate_and_validate_sql_first_prompt_witness :
  exists prompt response,
    hd (EvValidate EmptyString false EmptyString)
      (trace (generate_and_validate_sql
                (Demo.env (Some Demo.examples) Demo.db)
                (Sqlparse.parse Sqlparse.sample_keywords)
                "How many orders?" "Table: orders" 2
                (Some "SELECT 0") (Some "count the orders")
                [Some "SELECT 1"]))
    = EvGenerate prompt response
    /\ contains prompt "Table: orders"
    /\ contains prompt "How many orders?"
    /\ (forall previous feedback,
           Some "SELECT 0" = Some previous ->
           Some "count the orders" = Some feedback ->
           previous <> EmptyString -> feedback <> EmptyString ->
           contains prompt previous /\ contains prompt feedback)
    /\ (truthy (Some "SELECT 0") && truthy (Some "count the orders") = false ->
        asks "Table: orders" prompt "How many orders?").
Proof.
  apply (generate_and_validate_sql_first_prompt
           (Demo.env (Some Demo.examples) Demo.db)
           (Sqlparse.parse Sqlparse.sample_keywords)
           "How many orders?" "Table: orders" 2
           (Some "SELECT 0") (Some "count the orders")
           [Some "SELECT 1"] _
           (tl (trace (generate_and_validate_sql
                         (Demo.env (Some Demo.examples) Demo.db)
                         (Sqlparse.parse Sqlparse.sample_keywords)
                         "How many orders?" "Table: orders" 2
                         (Some "SELECT 0") (Some "count the orders")
                         [Some "SELECT 1"])))).
  vm_compute. reflexivity.
Defined.

Lemma generate_and_validate_sql_no_turn_witness :
  generate_and_validate_sql (Demo.env (Some Demo.examples) Demo.db)
    (Sqlparse.parse Sqlparse.sample_keywords)
    "How many orders?" "Table: orders" (-1) None None [Some "SELECT 1"]
  = (inl (ValueError
            "Failed to generate a syntactically valid SQL query after 0 attempts. Last database error: "),
     [], [Some "SELECT 1"]).
Proof.
  apply (generate_and_validate_sql_no_turn
           (Demo.env (Some Demo.examples) Demo.db)
           (Sqlparse.parse Sqlparse.sample_keywords)
           "How many orders?" "Table: orders" (-1) None None
           [Some "SELECT 1"]).
  lia.
Defined.

(** ** The extractor only cuts *)

Section ExtractorCuts.

Lemma contains_drop : forall i s, contains s (drop i s).
Proof.
  induction i as [|i IH]; intros s; [apply contains_self|].
  destruct s as [|c s]; [apply contains_self|].
  apply contains_cons, IH.
Qed.

Lemma take_drop : forall n s, take n s ++ drop n s = s.
Proof.
  induction n as [|n IH]; intros s; [reflexivity|].
  destruct s as [|c s]; [reflexivity|]. cbn. rewrite IH. reflexivity.
Qed.

Lemma contains_take : forall n s, contains s (take n s).
Proof.
  intros n s. exists EmptyString, (drop n s). symmetry. apply take_drop.
Qed.

Lemma contains_lstrip : forall s, contains s (lstrip s).
Proof.
  induction s as [|c s IH]; [apply contains_self|].
  cbn [lstrip]. destruct (isspace c); [|apply contains_self].
  apply contains_cons, IH.
Qed.

Lemma rstrip_prefix : forall s, exists r, s = rstrip s ++ r.
Proof.
  induction s as [|c s [r IH]]; [exists EmptyString; reflexivity|].
  rewrite rstrip_cons. destruct (rstrip s) as [|d x].
  - destruct (isspace c).
    + exists (String c s). reflexivity.
    + exists s. reflexivity.
  - exists r. cbn. rewrite IH at 1. reflexivity.
Qed.

Lemma contains_rstrip : forall s, contains s (rstrip s).
Proof.
  intros s. destruct (rstrip_prefix s) as [r H].
  exists EmptyString, r. exact H.
Qed.

Lemma contains_strip : forall s, contains s (strip s).
Proof.
  intros s. unfold strip.
  apply (contains_trans _ _ _ (contains_lstrip s)), contains_rstrip.
Qed.

End ExtractorCuts.

(** X9: the extractor only cuts: what it returns is a part of the raw
    text, in one piece. *)
Theorem clean_sql_output_is_part :
  forall raw, contains raw (clean_sql_output (Some raw)).
Proof.
  intros raw. rewrite clean_sql_output_unfold.
  destruct (re_search raw) as [start|].
  - apply (contains_trans _ _ _ (contains_drop start raw)).
    destruct (rfind ";" (drop start raw)) as [p|].
    + apply (contains_trans _ _ _ (contains_take (p + 1) (drop start raw))).
      apply contains_strip.
    + apply contains_strip.
  - exists EmptyString, raw. reflexivity.
Qed.

(** ** Facts on the Prompt Builder *)

Section PromptBuilderFacts.

Lemma prefix_split :
  forall a s, String.prefix a s = true -> exists r, s = a ++ r.
Proof.
  induction a as [|c a IH]; intros s H.
  - exists s. reflexivity.
  - destruct s as [|d s]; [discriminate|]. cbn in H.
    destruct (ascii_dec c d) as [->|]; [|discriminate].
    destruct (IH s H) as [r ->]. exists r. reflexivity.
Qed.

Lemma split_from_not_nil :
  forall sep s skip piece, split_from sep skip piece s <> [].
Proof.
  intros sep. induction s as [|c s IH]; intros skip piece; [discriminate|].
  cbn [split_from]. destruct skip as [|k]; [|apply IH].
  destruct (String.prefix sep (String c s)); [discriminate|apply IH].
Qed.

(** A text with the separator in it is split in two pieces at least. *)
Lemma split_from_found :
  forall sep s piece,
    sep <> EmptyString ->
    contains s sep ->
    2 <= length (split_from sep 0 piece s).
Proof.
  intros sep. induction s as [|c s IH]; intros piece Hsep Hc.
  - destruct Hc as (before & after & Heq).
    destruct before; [|discriminate]. destruct sep; [contradiction|].
    discriminate.
  - cbn [split_from]. destruct (String.prefix sep (String c s)) eqn:E.
    + cbn [length].
      pose proof (split_from_not_nil sep s (String.length sep - 1) []) as Hn.
      destruct (split_from sep (String.length sep - 1) [] s);
        [contradiction|cbn; lia].
    + apply IH; [exact Hsep|].
      destruct Hc as (before & after & Heq). destruct before as [|d before].
      * cbn in Heq. rewrite Heq, prefix_app in E. discriminate.
      * injection Heq as _ ->. exists before, after. reflexivity.
Qed.

(** A text split in two pieces at least has the separator in it. *)
Lemma split_from_two :
  forall sep s piece a b l,
    split_from sep 0 piece s = a :: b :: l -> contains s sep.
Proof.
  intros sep. induction s as [|c s IH]; intros piece a b l H;
    [discriminate|].
  cbn [split_from] in H. destruct (String.prefix sep (String c s)) eqn:E.
  - destruct (prefix_split _ _ E) as [r ->]. apply contains_head.
  - apply contains_cons. apply (IH _ _ _ _ H).
Qed.

Lemma parse_examples_blocks :
  forall raw block,
    In block (parse_examples raw) ->
    block <> EmptyString /\ strip block = block.
Proof.
  intros raw block H. unfold parse_examples in H.
  apply in_map_iff in H as (ex & <- & Hin).
  apply filter_In in Hin as [_ Hne]. split.
  - intros Heq. rewrite Heq in Hne. discriminate.
  - apply strip_idempotent.
Qed.

Lemma format_examples_ok :
  forall selected i formatted,
    Forall (fun block => contains (strip block) "---") selected ->
    exists out, format_examples i selected formatted = inr out.
Proof.
  induction selected as [|block more IH]; intros i formatted H.
  - eexists. reflexivity.
  - inversion H as [|? ? Hb Hmore]; subst. cbn [format_examples].
    pose proof (split_from_found "---" (strip block) []
                  ltac:(discriminate) Hb) as Hlen.
    unfold split.
    destruct (split_from "---" 0 [] (strip block)) as [|q [|y l]];
      cbn in Hlen; try lia.
    apply IH. exact Hmore.
Qed.

Lemma format_examples_fails :
  forall selected i formatted,
    Exists (fun block => ~ contains (strip block) "---") selected ->
    format_examples i selected formatted = inl IndexError.
Proof.
  induction selected as [|block more IH]; intros i formatted H.
  - inversion H.
  - cbn [format_examples]. unfold split.
    destruct (split_from "---" 0 [] (strip block)) as [|q [|y l]] eqn:E;
      try reflexivity.
    inversion H as [? ? Hb|? ? Hmore]; subst.
    + exfalso. apply Hb. apply (split_from_two _ _ _ _ _ _ E).
    + apply IH. exact Hmore.
Qed.

End PromptBuilderFacts.

(** X10: with an example file that can be read and holds no more blocks
    than asked for, the Prompt Builder takes every block, in the order of
    the file.  It returns the filled template when every block holds the
    separator [---], and raises [IndexError] when one of them does not; it
    causes no event. *)
Theorem build_prompt_from_files_separator :
  forall {W : Type} (env : Env W) schema_string examples_file user_question
         num_examples (w w1 : W) examples_raw,
    read_text env examples_file w = (FileText examples_raw, w1) ->
    length (parse_examples examples_raw) <= num_examples ->
    let r := build_prompt_from_files env schema_string examples_file
               user_question num_examples w in
    trace r = []
    /\ (Forall (fun block => contains block "---")
          (parse_examples examples_raw) ->
        exists formatted_examples,
          format_examples 0 (parse_examples examples_raw) EmptyString
          = inr formatted_examples
          /\ r = (inr (prompt_rules ++ schema_string ++ prompt_after_schema
                       ++ formatted_examples ++ prompt_task ++ user_question
                       ++ prompt_end), [], w1))
    /\ (Exists (fun block => ~ contains block "---")
          (parse_examples examples_raw) ->
        r = (inl IndexError, [], w1)).
Proof.
  intros W env schema file question k w w1 raw Hread Hlen r. subst r.
  unfold build_prompt_from_files. rewrite Hread.
  apply Nat.ltb_ge in Hlen. rewrite Hlen.
  refine (conj _ (conj _ _)).
  - destruct (format_examples 0 (parse_examples raw) EmptyString);
      reflexivity.
  - intros Hall.
    destruct (format_examples_ok (parse_examples raw) 0 EmptyString)
      as [out Hout].
    { apply Forall_forall. intros block Hin.
      rewrite (proj2 (parse_examples_blocks raw block Hin)).
      rewrite Forall_forall in Hall. apply (Hall block Hin). }
    exists out. rewrite Hout. split; reflexivity.
  - intros Hsome.
    rewrite (format_examples_fails (parse_examples raw) 0 EmptyString);
      [reflexivity|].
    apply Exists_exists in Hsome as (block & Hin & Hno).
    apply Exists_exists. exists block. split; [exact Hin|].
    rewrite (proj2 (parse_examples_blocks raw block Hin)). exact Hno.
Qed.

(** The example file of the small world: one block, with its separator. *)
Lemma build_prompt_from_files_separator_witness :
  trace (build_prompt_from_files (Demo.env (Some Demo.examples) Demo.db)
           "Table: orders" examples_path "How many orders?" 3 []) = [].
Proof.
  apply (build_prompt_from_files_separator
           (Demo.env (Some Demo.examples) Demo.db)
           "Table: orders" examples_path "How many orders?" 3 [] []
           Demo.examples).
  - reflexivity.
  - vm_compute. lia.
Defined.

Section UntargetedStatement.
Variable parse : string -> option (list token).

(** X11: the normalizer changes nothing in a statement that holds no leaf
    of type [Name.Quoted] between backticks and no call of [NOW],
    [IFNULL], [DATE], [ROUND] or [FORMAT_DATE], written in capitals, with
    0, 2, 1, 2 and 2 parameters: it returns the text of the statement
    without the white space at its ends.  A call of one of these names
    in small letters or with another number of parameters, and a call of
    any other function, are not rewritten. *)
Theorem fix_postgres_sql_untargeted :
  forall sql statement more,
    parse sql = Some (statement :: more) ->
    forallb untargeted (tokens statement) = true ->
    fix_postgres_sql parse sql = Some (strip (str_list (tokens statement))).
Proof.
  intros sql statement more Hparse H. unfold fix_postgres_sql.
  rewrite Hparse, (process_tokens_untargeted parse _ H). reflexivity.
Qed.

End UntargetedStatement.

(** A statement with a call of another function, a call of [NOW] in small
    letters and a call of [NOW] with a parameter. *)
Lemma fix_postgres_sql_untargeted_witness :
  fix_postgres_sql (Sqlparse.parse sample_keywords)
    "SELECT COUNT(a), now(), NOW(1) "
  = Some "SELECT COUNT(a), now(), NOW(1)".
Proof.
  apply (fix_postgres_sql_untargeted (Sqlparse.parse sample_keywords)
           "SELECT COUNT(a), now(), NOW(1) "
           (match Sqlparse.parse sample_keywords
                    "SELECT COUNT(a), now(), NOW(1) " with
            | Some (statement :: _) => statement
            | _ => Tok Name EmptyString
            end)
           []).
  - vm_compute. reflexivity.
  - vm_compute. reflexivity.
Defined.

(** ** Facts on the query endpoint *)

Section EndpointFacts.
Import Api.
Context {W : Type} (world : World W).
Variable parse : string -> option (list token).

(** [get_llm_analysis] never raises; it calls the generation service once,
    and not at all for an empty table. *)
Lemma get_llm_analysis_run :
  forall user_question df sql_query w,
    if empty df then
      get_llm_analysis world user_question df sql_query w
      = (inr (Some no_results_message), [], w)
    else
      exists prompt response w',
        get_llm_analysis world user_question df sql_query w
        = (inr (option_map strip response), [EvGenerate prompt response], w')
        /\ ollama_generate (env world) prompt w = (response, w')
        /\ prompt
           = analysis_prompt user_question sql_query (to_markdown df)
               (if (fst (shape df) =? 1) && (snd (shape df) =? 1)
                then single_value_instruction else EmptyString).
Proof.
  intros q df sql w. unfold get_llm_analysis.
  destruct (empty df); [reflexivity|].
  cbv zeta. unfold query_olama.
  destruct (ollama_generate (env world) _ w) as [response w'] eqn:E.
  do 3 eexists. split; [reflexivity|]. split; [exact E|reflexivity].
Qed.

(** The steps of a request, one after the other. *)
Lemma query_steps_run :
  forall request w,
    query_steps world parse request w
    = match read_text (env world) schema_path w with
      | (CannotOpen, w1) => (inl (Raised (OSError schema_path)), [], w1)
      | (CannotDecode reason, w1) =>
          (inl (Raised (UnicodeDecodeError reason)), [], w1)
      | (FileText enhanced_schema, w1) =>
          match
            generate_and_validate_sql (env world) parse (question request)
              enhanced_schema default_max_syntax_retries
              (previous_sql request) (feedback request) w1
          with
          | (inl e, t, w2) => (inl (Raised e), map Core t, w2)
          | (inr final_sql, t, w2) =>
              match read_sql world final_sql w2 with
              | (inl e, w3) =>
                  (inl (Library e),
                   (map Core t ++ [EvReadSql final_sql])%list, w3)
              | (inr df, w3) =>
                  match
                    get_llm_analysis world (question request) df final_sql w3
                  with
                  | (inl e, t', w4) =>
                      (inl (Raised e),
                       (map Core t ++ EvReadSql final_sql :: map Core t')%list,
                       w4)
                  | (inr None, t', w4) =>
                      (inl (Library (validation_error world)),
                       (map Core t ++ EvReadSql final_sql :: map Core t')%list,
                       w4)
                  | (inr (Some a), t', w4) =>
                      (inr {| analysis := a; sql_query := final_sql;
                              data := to_dict df |},
                       (map Core t ++ EvReadSql final_sql :: map Core t')%list,
                       w4)
                  end
              end
          end
      end.
Proof.
  intros request w. unfold query_steps, api_bind at 1, read_schema.
  destruct (read_text (env world) schema_path w) as [[schema| |reason] w1];
    [|reflexivity|reflexivity].
  unfold api_bind at 1, lift at 1.
  destruct (generate_and_validate_sql (env world) parse (question request)
              schema default_max_syntax_retries (previous_sql request)
              (feedback request) w1) as [[[e|sql] t] w2]; [reflexivity|].
  unfold api_bind at 1, execute.
  destruct (read_sql world sql w2) as [[e|df] w3]; [reflexivity|].
  unfold api_bind, lift.
  destruct (get_llm_analysis world (question request) df sql w3)
    as [[[e|[a|]] t'] w4]; cbn; rewrite ?app_nil_r; reflexivity.
Qed.

Lemma handle_query_events :
  forall request w,
    events (handle_query world parse request w)
    = events (query_steps world parse request w).
Proof.
  intros request w. unfold handle_query.
  destruct (query_steps world parse request w) as [[[e|response] t] w'];
    [|reflexivity].
  destruct (value_error e); reflexivity.
Qed.

Lemma not_in_core :
  forall statement t, ~ In (EvReadSql statement) (map Core t).
Proof.
  intros statement t H. apply in_map_iff in H as (e & He & _). discriminate.
Qed.

Lemma in_around_read_sql :
  forall statement sql t t',
    In (EvReadSql statement) (map Core t ++ EvReadSql sql :: map Core t')%list ->
    statement = sql.
Proof.
  intros statement sql t t' H. apply in_app_or in H as [H|[H|H]].
  - destruct (not_in_core _ _ H).
  - injection H as ->. reflexivity.
  - destruct (not_in_core _ _ H).
Qed.

(** The loop as the endpoint calls it, with three turns. *)
Lemma loop_of_three :
  forall user_question enhanced_schema previous feedback w,
    let r := generate_and_validate_sql (env world) parse user_question
               enhanced_schema default_max_syntax_retries previous feedback
               w in
    generation_calls (trace r) <= 3
    /\ match outcome r with
       | inr sql =>
           exists before,
             trace r
             = (before ++ [EvExplain ("EXPLAIN " ++ sql) DbOk;
                           EvValidate sql true "OK"])%list
             /\ passes_gate sql = true
       | inl (ValueError m) =>
           m = exhausted_message default_max_syntax_retries
                 (last_message EmptyString (trace r))
           /\ validation_calls (trace r) = 3
           /\ all_failed (trace r) = true
       | inl e =>
           (e = OSError examples_path \/ e = IndexError \/ e = SQLParseError
            \/ exists reason w0 w1,
                 e = UnicodeDecodeError reason
                 /\ read_text (env world) examples_path w0
                    = (CannotDecode reason, w1))
           /\ validation_calls (trace r) < 3
           /\ all_failed (trace r) = true
       end.
Proof.
  intros q schema prev fb w r. subst r. unfold generate_and_validate_sql.
  pose proof (attempts_inv (env world) parse schema
                (base_prompt_instruction q prev fb)
                default_max_syntax_retries 3 0 EmptyString EmptyString w)
    as [Hgen H].
  cbv zeta in H.
  change (Z.to_nat (default_max_syntax_retries + 1)) with 3.
  split; [exact Hgen|].
  destruct (outcome _) as [[m| | | |]|sql]; try exact H.
  destruct H as (before & H1 & H2 & _). exists before. split; assumption.
Qed.

Lemma generation_calls_snoc :
  forall t a b,
    generation_calls (t ++ [EvExplain a b])%list = generation_calls t.
Proof.
  intros. rewrite generation_calls_app. cbn. lia.
Qed.

(** X12: the analysis calls the generation service once, and not at all
    for an empty table, for which it answers with a fixed sentence.  The prompt of the call holds the question, the query and
    the rendering of the table as they are; for a table that is not of one
    row and one column it holds no instruction: it ends right after the
    line [Your Task:]. *)
Theorem get_llm_analysis_call :
  forall user_question df sql_query (w : W),
    let r := get_llm_analysis world user_question df sql_query w in
    (empty df = true ->
     r = (inr (Some no_results_message), [], w))
    /\ (empty df = false ->
        exists prompt response w',
          r = (inr (option_map strip response),
               [EvGenerate prompt response], w')
          /\ contains prompt user_question
          /\ contains prompt sql_query
          /\ contains prompt (to_markdown df)
          /\ (shape df <> (1, 1) ->
              exists head,
                prompt = head ++ "
Your Task:

")).
Proof.
  intros q df sql w r. subst r.
  pose proof (get_llm_analysis_run q df sql w) as H.
  destruct (empty df).
  - split; [intros _; exact H|discriminate].
  - split; [discriminate|]. intros _.
    destruct H as (prompt & response & w' & Hrun & _ & Hprompt).
    exists prompt, response, w'. split; [exact Hrun|].
    rewrite Hprompt. unfold analysis_prompt.
    refine (conj _ (conj _ (conj _ _))).
    + do 2 apply contains_app_left. apply contains_head.
    + do 5 apply contains_app_left. apply contains_head.
    + do 7 apply contains_app_left. apply contains_head.
    + intros Hshape.
      assert (Hone : (fst (shape df) =? 1) && (snd (shape df) =? 1) = false).
      { destruct (shape df) as [rows cols]. cbn [fst snd].
        destruct (rows =? 1) eqn:Er; [|reflexivity].
        destruct (cols =? 1) eqn:Ec; [|reflexivity].
        apply Nat.eqb_eq in Er, Ec. subst. contradiction. }
      rewrite Hone.
      exists ("
The user asked the following question:
" ++ double_quote ++ q ++ double_quote ++ "

To answer this, the following SQL query was executed:
```sql
" ++ sql ++ "
It produced this result:

Markdown

" ++ to_markdown df).
      rewrite !str_app_assoc. reflexivity.
Qed.

(** X13: the endpoint runs a query on the database only after the loop has
    returned it, so only after the dry run of that very text was accepted
    in the same request and the text passed the read-only gate; it runs
    one query at most. *)
Theorem handle_query_executes_validated :
  forall request (w : W) statement,
    In (EvReadSql statement) (events (handle_query world parse request w)) ->
    exists before after,
      events (handle_query world parse request w)
      = (map Core
           (before ++ [EvExplain ("EXPLAIN " ++ statement) DbOk;
                       EvValidate statement true "OK"])
         ++ EvReadSql statement :: map Core after)%list
      /\ passes_gate statement = true.
Proof.
  intros request w statement. rewrite handle_query_events, query_steps_run.
  destruct (read_text (env world) schema_path w) as [[schema| |reason] w1].
  2:{ intros []. }
  2:{ intros []. }
  pose proof (loop_of_three (question request) schema (previous_sql request)
                (feedback request) w1) as [_ Hloop].
  cbv zeta in Hloop.
  destruct (generate_and_validate_sql (env world) parse (question request)
              schema default_max_syntax_retries (previous_sql request)
              (feedback request) w1) as [[[e|sql] t] w2];
    cbn [outcome trace fst snd] in Hloop.
  { intros H. destruct (not_in_core _ _ H). }
  destruct Hloop as (before & -> & Hgate).
  destruct (read_sql world sql w2) as [[e|df] w3].
  - cbn [events fst snd]. intros H.
    change ([EvReadSql sql]) with (EvReadSql sql :: map Core []) in H |- *.
    apply in_around_read_sql in H. subst statement.
    exists before, []. split; [reflexivity|exact Hgate].
  - destruct (get_llm_analysis world (question request) df sql w3)
      as [[[e|[a|]] t'] w4]; cbn [events fst snd]; intros H;
      apply in_around_read_sql in H; subst statement;
      exists before, t'; (split; [reflexivity|exact Hgate]).
Qed.

(** X14: the failures of the endpoint.  It answers 400 with the message of
    the loop when the three turns of the loop were all rejected, having
    run no query; 400 with the text of the decoding error when the schema
    file or the example file is opened and does not hold text in the
    encoding it is read with, and 500 when one of them cannot be opened, a
    block of examples has no separator or the parser fails, in each case
    before any query was accepted; and after the query was run, 400 or 500
    with the text of the exception that [pd.read_sql] or the making of the
    response raised, 400 when its class derives from [ValueError]. *)
Theorem handle_query_failure :
  forall request (w : W) status detail,
    result (handle_query world parse request w)
    = inl (HTTPError status detail) ->
    let t := events (handle_query world parse request w) in
    (exists core,
        t = map Core core
        /\ status = 400
        /\ detail = exhausted_message 2 (last_message EmptyString core)
        /\ validation_calls core = 3
        /\ all_failed core = true)
    \/ (exists core path w0 w1,
           t = map Core core
           /\ status = 400
           /\ read_text (env world) path w0 = (CannotDecode detail, w1)
           /\ (path = schema_path /\ core = [] \/ path = examples_path)
           /\ validation_calls core < 3
           /\ all_failed core = true)
    \/ (exists core e,
           t = map Core core
           /\ status = 500
           /\ detail = "An unexpected error occurred: " ++ str_exn world e
           /\ (e = OSError schema_path \/ e = OSError examples_path
               \/ e = IndexError \/ e = SQLParseError)
           /\ validation_calls core < 3
           /\ all_failed core = true)
    \/ (exists statement e,
           In (EvReadSql statement) t
           /\ ((exists w2 w3, read_sql world statement w2 = (inl e, w3))
               \/ e = validation_error world)
           /\ status = (if is_value_error e then 400 else 500)
           /\ detail
              = (if is_value_error e then text e
                 else "An unexpected error occurred: " ++ text e)).
Proof.
  intros request w status detail. cbv zeta.
  rewrite handle_query_events. unfold handle_query.
  rewrite query_steps_run.
  destruct (read_text (env world) schema_path w) as [[schema| |reason] w1]
    eqn:Hschema.
  2:{ cbn. intros H. injection H as <- <-. right. right. left.
      exists [], (OSError schema_path).
      refine (conj eq_refl (conj eq_refl (conj eq_refl (conj _ _)))).
      - left. reflexivity.
      - cbn. split; [lia|reflexivity]. }
  2:{ cbn. intros H. injection H as <- <-. right. left.
      exists [], schema_path, w, w1.
      refine (conj eq_refl (conj eq_refl (conj Hschema (conj _ _)))).
      - left. split; reflexivity.
      - cbn. split; [lia|reflexivity]. }
  pose proof (loop_of_three (question request) schema (previous_sql request)
                (feedback request) w1) as [_ Hloop].
  cbv zeta in Hloop.
  destruct (generate_and_validate_sql (env world) parse (question request)
              schema default_max_syntax_retries (previous_sql request)
              (feedback request) w1) as [[[e|sql] t] w2];
    cbn [outcome trace fst snd] in Hloop.
  { destruct e as [m|path|reason| |]; cbn; intros H; injection H as <- <-.
    - left. exists t. destruct Hloop as (-> & Hv & Hf). repeat split; auto.
    - right. right. left. exists t, (OSError path).
      destruct Hloop as ([He|[He|[He|(? & ? & ? & He & _)]]] & Hv & Hf);
        try discriminate He.
      rewrite He. repeat split; auto.
    - right. left.
      destruct Hloop as ([He|[He|[He|(r & w0 & w0' & He & Hread)]]] & Hv & Hf);
        try discriminate He.
      injection He as ->. exists t, examples_path, w0, w0'.
      refine (conj eq_refl (conj eq_refl (conj Hread (conj _ (conj Hv Hf))))).
      right. reflexivity.
    - right. right. left. exists t, IndexError.
      destruct Hloop as (_ & Hv & Hf). repeat split; auto.
    - right. right. left. exists t, SQLParseError.
      destruct Hloop as (_ & Hv & Hf). repeat split; auto. }
  destruct (read_sql world sql w2) as [[e|df] w3] eqn:Hread.
  { cbn [value_error str_exception]. intros H. right. right. right.
    exists sql, e. refine (conj _ (conj _ _)).
    - cbn [events fst snd]. apply in_or_app. right. left. reflexivity.
    - left. exists w2, w3. exact Hread.
    - destruct (is_value_error e); cbn in H; injection H as <- <-;
        split; reflexivity. }
  pose proof (get_llm_analysis_run (question request) df sql w3) as Hrun.
  destruct (empty df).
  { rewrite Hrun. cbn. discriminate. }
  destruct Hrun as (prompt & response & w4 & -> & _ & _).
  destruct response as [answer|]; cbn [option_map]; [cbn; discriminate|].
  cbn [value_error str_exception]. intros H. right. right. right.
  exists sql, (validation_error world). refine (conj _ (conj _ _)).
  - cbn [events fst snd]. apply in_or_app. right. left. reflexivity.
  - right. reflexivity.
  - destruct (is_value_error (validation_error world)); cbn in H;
      injection H as <- <-; split; reflexivity.
Qed.

(** X15: the answer of the endpoint.  Its query is the text that the loop
    returned and the endpoint ran, its data are the records of the table
    that the database gave for it, and its analysis is the fixed sentence,
    with no call of the generation service, when the table is empty, and
    the answer of the generation service without the white space at its
    ends when it is not.  A request calls the generation service four
    times at most. *)
Theorem handle_query_response :
  forall request (w : W) response,
    result (handle_query world parse request w) = inr response ->
    exists before df after w2 w3,
      events (handle_query world parse request w)
      = (map Core before ++ EvReadSql (sql_query response) :: map Core after)%list
      /\ read_sql world (sql_query response) w2 = (inr df, w3)
      /\ data response = to_dict df
      /\ (if empty df
          then analysis response = no_results_message /\ after = []
          else exists prompt answer,
                 after = [EvGenerate prompt (Some answer)]
                 /\ analysis response = strip answer
                 /\ contains prompt (question request)
                 /\ contains prompt (sql_query response))
      /\ generation_calls before + generation_calls after <= 4.
Proof.
  intros request w response. rewrite handle_query_events.
  unfold handle_query. rewrite query_steps_run.
  destruct (read_text (env world) schema_path w) as [[schema| |reason] w1].
  2:{ cbn. discriminate. }
  2:{ cbn. discriminate. }
  pose proof (loop_of_three (question request) schema (previous_sql request)
                (feedback request) w1) as [Hgen _].
  cbv zeta in Hgen.
  destruct (generate_and_validate_sql (env world) parse (question request)
              schema default_max_syntax_retries (previous_sql request)
              (feedback request) w1) as [[[e|sql] t] w2];
    cbn [outcome trace fst snd] in Hgen.
  { destruct (value_error (Raised e)); cbn; discriminate. }
  destruct (read_sql world sql w2) as [[e|df] w3] eqn:Hread.
  { destruct (value_error (Library e)); cbn; discriminate. }
  pose proof (get_llm_analysis_run (question request) df sql w3) as Hrun.
  destruct (empty df) eqn:Hempty.
  - rewrite Hrun. cbn. intros H. injection H as <-. cbn.
    exists t, df, [], w2, w3. rewrite Hempty.
    repeat split; auto. cbn. lia.
  - destruct Hrun as (prompt & response' & w4 & Hrun & _ & Hprompt).
    rewrite Hrun.
    destruct response' as [answer|]; cbn [option_map].
    2:{ destruct (value_error (Library (validation_error world)));
          cbn; discriminate. }
    cbn. intros H. injection H as <-. cbn.
    exists t, df, [EvGenerate prompt (Some answer)], w2, w3.
    rewrite Hempty. refine (conj eq_refl (conj Hread (conj eq_refl
                              (conj _ _)))).
    + exists prompt, answer. rewrite Hprompt. unfold analysis_prompt.
      refine (conj eq_refl (conj eq_refl (conj _ _))).
      * do 2 apply contains_app_left. apply contains_head.
      * do 5 apply contains_app_left. apply contains_head.
    + cbn. lia.
Qed.

End EndpointFacts.

(** Requests in the small world: the first candidate is accepted and the
    analysis is given; the three candidates are rejected; the table is
    empty. *)
Lemma get_llm_analysis_call_witness :
  Api.get_llm_analysis Api.demo "How many orders?"
    {| Api.shape := (0, 1); Api.to_markdown := "| count |";
       Api.to_dict := [] |}
    "SELECT 1" [Some "The count is 42."]
  = (inr (Some Api.no_results_message), [], [Some "The count is 42."]).
Proof.
  apply (get_llm_analysis_call Api.demo "How many orders?"
           {| Api.shape := (0, 1); Api.to_markdown := "| count |";
              Api.to_dict := [] |}
           "SELECT 1" [Some "The count is 42."]).
  reflexivity.
Defined.

Lemma handle_query_executes_validated_witness :
  exists before after,
    Api.events
      (Api.handle_query Api.demo (Sqlparse.parse Sqlparse.sample_keywords)
         {| Api.question := "How many orders?"; Api.previous_sql := None;
            Api.feedback := None |}
         [Some "SELECT 1"; Some " The count is 42. "])
    = (map Api.Core
         (before ++ [EvExplain ("EXPLAIN " ++ "SELECT 1") DbOk;
                     EvValidate "SELECT 1" true "OK"])
       ++ Api.EvReadSql "SELECT 1" :: map Api.Core after)%list
    /\ passes_gate "SELECT 1" = true.
Proof.
  apply (handle_query_executes_validated Api.demo
           (Sqlparse.parse Sqlparse.sample_keywords)
           {| Api.question := "How many orders?"; Api.previous_sql := None;
              Api.feedback := None |}
           [Some "SELECT 1"; Some " The count is 42. "] "SELECT 1").
  vm_compute. do 3 right. left. reflexivity.
Defined.

Lemma handle_query_failure_witness :
  Api.result
    (Api.handle_query Api.demo (Sqlparse.parse Sqlparse.sample_keywords)
       {| Api.question := "How many orders?"; Api.previous_sql := None;
          Api.feedback := None |}
       [Some "SELECT 2"; None; Some "SELECT 3"])
  = inl (Api.HTTPError 400
           "Failed to generate a syntactically valid SQL query after 3 attempts. Last database error: syntax error")
  /\ ((exists core,
          Api.events
            (Api.handle_query Api.demo
               (Sqlparse.parse Sqlparse.sample_keywords)
               {| Api.question := "How many orders?";
                  Api.previous_sql := None; Api.feedback := None |}
               [Some "SELECT 2"; None; Some "SELECT 3"])
          = map Api.Core core
          /\ 400 = 400
          /\ "Failed to generate a syntactically valid SQL query after 3 attempts. Last database error: syntax error"
             = exhausted_message 2 (last_message EmptyString core)
          /\ validation_calls core = 3
          /\ all_failed core = true)
      \/ (exists core path w0 w1,
             Api.events
               (Api.handle_query Api.demo
                  (Sqlparse.parse Sqlparse.sample_keywords)
                  {| Api.question := "How many orders?";
                     Api.previous_sql := None; Api.feedback := None |}
                  [Some "SELECT 2"; None; Some "SELECT 3"])
             = map Api.Core core
             /\ 400 = 400
             /\ read_text (Api.env Api.demo) path w0
                = (CannotDecode
                     "Failed to generate a syntactically valid SQL query after 3 attempts. Last database error: syntax error",
                   w1)
             /\ (path = Api.schema_path /\ core = []
                 \/ path = examples_path)
             /\ validation_calls core < 3
             /\ all_failed core = true)
      \/ (exists core e,
             Api.events
               (Api.handle_query Api.demo
                  (Sqlparse.parse Sqlparse.sample_keywords)
                  {| Api.question := "How many orders?";
                     Api.previous_sql := None; Api.feedback := None |}
                  [Some "SELECT 2"; None; Some "SELECT 3"])
             = map Api.Core core
             /\ 400 = 500
             /\ "Failed to generate a syntactically valid SQL query after 3 attempts. Last database error: syntax error"
                = "An unexpected error occurred: " ++ Api.str_exn Api.demo e
             /\ (e = OSError Api.schema_path \/ e = OSError examples_path
                 \/ e = IndexError \/ e = SQLParseError)
             /\ validation_calls core < 3
             /\ all_failed core = true)
      \/ (exists statement e,
             In (Api.EvReadSql statement)
                (Api.events
                   (Api.handle_query Api.demo
                      (Sqlparse.parse Sqlparse.sample_keywords)
                      {| Api.question := "How many orders?";
                         Api.previous_sql := None; Api.feedback := None |}
                      [Some "SELECT 2"; None; Some "SELECT 3"]))
             /\ ((exists w2 w3,
                     Api.read_sql Api.demo statement w2 = (inl e, w3))
                 \/ e = Api.validation_error Api.demo)
             /\ 400 = (if Api.is_value_error e then 400 else 500)
             /\ "Failed to generate a syntactically valid SQL query after 3 attempts. Last database error: syntax error"
                = (if Api.is_value_error e then Api.text e
                   else "An unexpected error occurred: " ++ Api.text e))).
Proof.
  assert (H : Api.result
                (Api.handle_query Api.demo
                   (Sqlparse.parse Sqlparse.sample_keywords)
                   {| Api.question := "How many orders?";
                      Api.previous_sql := None; Api.feedback := None |}
                   [Some "SELECT 2"; None; Some "SELECT 3"])
              = inl (Api.HTTPError 400
                       "Failed to generate a syntactically valid SQL query after 3 attempts. Last database error: syntax error"))
    by (vm_compute; reflexivity).
  split; [exact H|].
  apply (handle_query_failure Api.demo
           (Sqlparse.parse Sqlparse.sample_keywords)
           {| Api.question := "How many orders?"; Api.previous_sql := None;
              Api.feedback := None |}
           [Some "SELECT 2"; None; Some "SELECT 3"] 400 _ H).
Defined.

Lemma handle_query_response_witness :
  exists before df after w2 w3,
    Api.events
      (Api.handle_query Api.demo (Sqlparse.parse Sqlparse.sample_keywords)
         {| Api.question := "How many orders?"; Api.previous_sql := None;
            Api.feedback := None |}
         [Some "SELECT 1"; Some " The count is 42. "])
    = (map Api.Core before ++ Api.EvReadSql "SELECT 1"
       :: map Api.Core after)%list
    /\ Api.read_sql Api.demo "SELECT 1" w2 = (inr df, w3)
    /\ [[("count", "42")]] = Api.to_dict df
    /\ (if Api.empty df
        then "The count is 42." = Api.no_results_message /\ after = []
        else exists prompt answer,
               after = [EvGenerate prompt (Some answer)]
               /\ "The count is 42." = strip answer
               /\ contains prompt "How many orders?"
               /\ contains prompt "SELECT 1")
    /\ generation_calls before + generation_calls after <= 4.
Proof.
  apply (handle_query_response Api.demo
           (Sqlparse.parse Sqlparse.sample_keywords)
           {| Api.question := "How many orders?"; Api.previous_sql := None;
              Api.feedback := None |}
           [Some "SELECT 1"; Some " The count is 42. "]
           {| Api.analysis := "The count is 42."; Api.sql_query := "SELECT 1";
              Api.data := [[("count", "42")]] |}).
  vm_compute. reflexivity.
Defined.
